(** * Expense tracker glue modules: insight generator and user provisioner

  A shallow embedding of the two TypeScript modules of the repository:
  the Gemini adapter ([generateExpenseInsights], [categorizeExpense],
  [generateAIAnswer]) and the Clerk/Prisma user provisioner
  ([checkUser]).

  JavaScript values are modelled as they exist at run time (the static
  TypeScript annotations are erased): strings are sequences of UTF-16
  code units, numbers are IEEE 754 binary64 floats, objects are
  key/value lists.  Everything the modules obtain from outside (the
  model endpoint, the clock, the identity provider, the database) is an
  external call answered by an environment; a program is run against an
  environment and the run records the trace of calls it made. *)

From Stdlib Require Import List NArith ZArith Bool Lia String Ascii.
From Stdlib Require Import PrimFloat DecimalString DecimalPos DecimalZ.
From ExtLib Require Import Structures.Monad Structures.MonadExc.
Import ListNotations.
Import MonadNotation.
Local Open Scope monad_scope.
(* Decimal literals such as 0.8 denote the nearest binary64 value, as they
   do in JavaScript. *)
Set Warnings "-register-all,-inexact-float".

(** ** JavaScript strings *)

Module JsString.

(** A string is its sequence of UTF-16 code units. *)
Definition jsstring : Type := list N.

(** The code units of an ASCII source literal. *)
Definition lit (s : string) : jsstring :=
  map N_of_ascii (list_ascii_of_string s).

(** The double quote, U+0022. *)
Definition dquote : jsstring := [34%N].

(** Line feed, U+000A: a line break inside a template literal. *)
Definition nl : jsstring := [10%N].

Fixpoint eqb (s t : jsstring) : bool :=
  match s, t with
  | [], [] => true
  | a :: s', b :: t' => N.eqb a b && eqb s' t'
  | _, _ => false
  end.

(** [Array.prototype.includes] on an array of strings: SameValueZero on
    strings is equality of the code unit sequences. *)
Definition includes (l : list jsstring) (s : jsstring) : bool :=
  existsb (eqb s) l.

(** ECMAScript WhiteSpace and LineTerminator code points, the characters
    [String.prototype.trim] strips. *)
Definition is_white_space (c : N) : bool :=
  (N.eqb c 9 || N.eqb c 10 || N.eqb c 11 || N.eqb c 12 || N.eqb c 13
   || N.eqb c 32 || N.eqb c 160 || N.eqb c 5760
   || (N.leb 8192 c && N.leb c 8202)
   || N.eqb c 8232 || N.eqb c 8233 || N.eqb c 8239 || N.eqb c 8287
   || N.eqb c 12288 || N.eqb c 65279)%bool.

Fixpoint trimStart (s : jsstring) : jsstring :=
  match s with
  | c :: s' => if is_white_space c then trimStart s' else s
  | [] => []
  end.

Definition trimEnd (s : jsstring) : jsstring :=
  rev (trimStart (rev s)).

(** [String.prototype.trim]. *)
Definition trim (s : jsstring) : jsstring := trimEnd (trimStart s).

(** A string that does not begin with white space. *)
Definition starts_clean (s : jsstring) : Prop :=
  match s with
  | [] => True
  | c :: _ => is_white_space c = false
  end.

(** Join the lines of a multi-line template literal. *)
Fixpoint lines (l : list jsstring) : jsstring :=
  match l with
  | [] => []
  | [x] => x
  | x :: rest => x ++ nl ++ lines rest
  end.

(** Number-to-string conversion of an integer-valued number below
    10^21 in magnitude: the decimal digits, with a leading minus sign. *)
Definition of_Z (z : Z) : jsstring :=
  lit (NilZero.string_of_int (Z.to_int z)).

Definition of_nat (n : nat) : jsstring := of_Z (Z.of_nat n).

(** The code unit of the hyphen-minus, U+002D. *)
Definition is_dash (c : N) : bool := N.eqb c 45.

End JsString.
Import JsString.

(** ** JavaScript values *)

Module JsValue.

(** Values as [JSON.parse] builds them, plus [undefined] for a property
    that is absent. *)
Inductive JSValue : Type :=
| JUndefined
| JNull
| JBool (b : bool)
| JNum (x : float)
| JStr (s : jsstring)
| JArr (elems : list JSValue)
| JObj (props : list (jsstring * JSValue)).

(** What a [throw] carries. *)
Inductive Thrown : Type :=
| Error (message : jsstring)        (* new Error(message) *)
| TypeError (message : jsstring)    (* raised by the engine *)
| Foreign (payload : JSValue).      (* raised by an external call *)

Definition is_nan (x : float) : bool := negb (PrimFloat.eqb x x).

(** ToBoolean. *)
Definition truthy (v : JSValue) : bool :=
  match v with
  | JUndefined | JNull => false
  | JBool b => b
  | JNum x => negb (PrimFloat.eqb x 0 || is_nan x)
  | JStr s => match s with [] => false | _ => true end
  | JArr _ | JObj _ => true
  end.

(** [a || b] *)
Definition or_else (a b : JSValue) : JSValue :=
  if truthy a then a else b.

Fixpoint lookup (k : jsstring) (props : list (jsstring * JSValue)) : JSValue :=
  match props with
  | [] => JUndefined
  | (k', v) :: rest => if JsString.eqb k k' then v else lookup k rest
  end.

(** [v.name] for a property name that no built-in prototype defines
    (as is the case of every name the modules read): the own property
    of an object, [undefined] on any other value, and a TypeError on
    [null] and [undefined]. *)
Definition getProp (v : JSValue) (name : jsstring) : Thrown + JSValue :=
  match v with
  | JUndefined | JNull =>
      inl (TypeError (lit "Cannot read properties of null or undefined"))
  | JObj props => inr (lookup name props)
  | _ => inr JUndefined
  end.

End JsValue.
Import JsValue.

(** ** External calls, traces and the program monad *)

Module Effects.
Section WithSignature.

(** [Call X] is the signature of the external calls answered with an [X];
    [Out] is what a console line carries. *)
Variable Call : Type -> Type.
Variable Out : Type.

Inductive Event : Type :=
| Called {X : Type} (c : Call X) (answer : X)
| Logged (line : Out).

(** The events of a run, oldest first. *)
Definition Trace : Type := list Event.

(** An environment answers each call, knowing everything that happened
    before it. *)
Definition Env : Type := forall X : Type, Call X -> Trace -> X.

(** A program: run against an environment from a trace, it either
    returns or throws, and extends the trace. *)
Record M (A : Type) : Type := mkM
  { run : Env -> Trace -> (Thrown + A) * Trace }.

Definition M_ret {A} (a : A) : M A :=
  mkM A (fun _ tr => (inr a, tr)).

Definition M_bind {A B} (m : M A) (k : A -> M B) : M B :=
  mkM B (fun env tr =>
    match run A m env tr with
    | (inr a, tr') => run B (k a) env tr'
    | (inl e, tr') => (inl e, tr')
    end).

(** [throw e] *)
Definition M_raise {A} (e : Thrown) : M A :=
  mkM A (fun _ tr => (inl e, tr)).

(** [try { m } catch (error) { handler error }] *)
Definition M_catch {A} (m : M A) (handler : Thrown -> M A) : M A :=
  mkM A (fun env tr =>
    match run A m env tr with
    | (inr a, tr') => (inr a, tr')
    | (inl e, tr') => run A (handler e) env tr'
    end).

(** Perform an external call: the environment answers, the trace grows. *)
Definition call {X} (c : Call X) : M X :=
  mkM X (fun env tr => let answer := env X c tr in
                       (inr answer, tr ++ [Called c answer])).

(** [console.error(...)] *)
Definition console_error (line : Out) : M unit :=
  mkM unit (fun _ tr => (inr tt, tr ++ [Logged line])).

End WithSignature.

Arguments Called {Call Out X} c answer.
Arguments Logged {Call Out} line.
Arguments mkM {Call Out A} run.
Arguments run {Call Out A} m env tr.
Arguments M_ret {Call Out A} a.
Arguments M_bind {Call Out A B} m k.
Arguments M_raise {Call Out A} e.
Arguments M_catch {Call Out A} m handler.
Arguments call {Call Out X} c.
Arguments console_error {Call Out} line.

#[global] Instance Monad_M {Call : Type -> Type} {Out : Type} : Monad (M Call Out) :=
  {| ret := @M_ret Call Out; bind := @M_bind Call Out |}.

#[global] Instance MonadExc_M {Call : Type -> Type} {Out : Type} : MonadExc Thrown (M Call Out) :=
  {| raise := @M_raise Call Out; catch := @M_catch Call Out |}.

(** The outcome of an operation that may throw, continued in a program. *)
Definition liftR {Call : Type -> Type} {Out A : Type} (r : Thrown + A) :
    M Call Out A :=
  match r with
  | inl e => raise e
  | inr a => ret a
  end.

(** An external call that may throw. *)
Definition call_or_throw {Call : Type -> Type} {Out X : Type}
    (c : Call (Thrown + X)%type) : M Call Out X :=
  r <- call c ;; liftR r.

(** [Array.prototype.map] over the elements of an array, the callback
    receiving the element and its index; the elements are visited in
    order and the first callback that throws ends the loop. *)
Fixpoint mapM_from {Call : Type -> Type} {Out A B : Type} (f : A -> nat -> M Call Out B)
    (l : list A) (index : nat) : M Call Out (list B) :=
  match l with
  | [] => ret []
  | x :: rest =>
      y <- f x index ;;
      ys <- mapM_from f rest (S index) ;;
      ret (y :: ys)
  end.

End Effects.
Import Effects.

(** ** The insight generator *)

Module Expense.
Record ExpenseRecord : Type :=
  { id : jsstring;
    amount : float;
    category : jsstring;
    description : jsstring;
    date : jsstring }.
End Expense.

Module Insight.
(** An insight as it is returned at run time: [id] is built by a template
    literal and is a string; the other fields hold whatever value the
    expression that fills them evaluates to. *)
Record AIInsight : Type :=
  { id : jsstring;
    type : JSValue;
    title : JSValue;
    message : JSValue;
    action : JSValue;
    confidence : JSValue }.
End Insight.

Module Gemini.
Import Expense.

Record GenerationConfig : Type :=
  { responseMimeType : jsstring;
    temperature : float }.

Record ModelParams : Type :=
  { model : jsstring;
    generationConfig : option GenerationConfig }.

(** The handle [genAI.getGenerativeModel(params)] returns. *)
Record GenerativeModel : Type :=
  { apiKey : jsstring;
    params : ModelParams }.

(** What [model.generateContent] resolves to: [response_text] is the
    outcome of [result.response.text()].  The SDK types it as a string;
    the source also guards the nullish case ([?.], [|| '']), which is
    [None] here. *)
Record GenerateContentResult : Type :=
  { response_text : Thrown + option jsstring }.

(** The calls to the outside: [model.generateContent(prompt)], which may
    throw, and [Date.now()], the milliseconds since the epoch, an integer. *)
Inductive Call : Type -> Type :=
| GenerateContent (m : GenerativeModel) (prompt : jsstring) :
    Call (Thrown + GenerateContentResult)
| Date_now : Call Z.

(** A console line: the message and the error logged with it. *)
Definition Out : Type := (jsstring * Thrown)%type.

Abbreviation M := (Effects.M Call Out).
Abbreviation Env := (Effects.Env Call Out).
Abbreviation Event := (Effects.Event Call Out).
Abbreviation Trace := (Effects.Trace Call Out).

(** The pure built-ins and the process environment the module reads. *)
Record Platform : Type :=
  { JSON_parse : jsstring -> Thrown + JSValue;
    (* JSON.stringify(value, null, 2) *)
    JSON_stringify : JSValue -> jsstring;
    (* process.env.GEMINI_API_KEY *)
    GEMINI_API_KEY : option jsstring }.

Section WithPlatform.
Variable P : Platform.

(** [new GoogleGenerativeAI(process.env.GEMINI_API_KEY || '')]: the client
    is the credential it holds, the empty string when the variable is
    unset or empty. *)
Definition genAI : jsstring :=
  match GEMINI_API_KEY P with
  | Some (c :: k) => c :: k
  | _ => []
  end.

Definition modelName : jsstring := lit "gemini-1.5-flash-latest".

Definition getGenerativeModel (p : ModelParams) : GenerativeModel :=
  {| apiKey := genAI; params := p |}.

(** The model handle of the insight call: JSON output is enforced. *)
Definition insightsModel : GenerativeModel :=
  getGenerativeModel
    {| model := modelName;
       generationConfig :=
         Some {| responseMimeType := lit "application/json";
                 temperature := 0.7 |} |}.

(** The model handle of the two other calls: default configuration. *)
Definition plainModel : GenerativeModel :=
  getGenerativeModel {| model := modelName; generationConfig := None |}.

Definition generateContent (m : GenerativeModel) (prompt : jsstring) :
    M GenerateContentResult :=
  call_or_throw (GenerateContent m prompt).

(** [expense => ({ amount, category, description, date })] *)
Definition summarize (expense : ExpenseRecord) : JSValue :=
  JObj [ (lit "amount", JNum (amount expense));
         (lit "category", JStr (category expense));
         (lit "description", JStr (description expense));
         (lit "date", JStr (date expense)) ].

Definition expensesSummary (expenses : list ExpenseRecord) : JSValue :=
  JArr (map summarize expenses).

(** A quoted word inside a template literal. *)
Definition q (s : string) : jsstring := dquote ++ lit s ++ dquote.

Definition insightsPrompt (expenses : list ExpenseRecord) : jsstring :=
  lines
    [ lit "You are a financial advisor AI. Analyze the following expense data and provide 3-4 actionable financial insights. ";
      lit "    Return a JSON array of insights with this exact structure:";
      lit "    [{";
      lit "      " ++ q "type" ++ lit ": " ++ q "warning|info|success|tip" ++ lit ",";
      lit "      " ++ q "title" ++ lit ": " ++ q "Brief title" ++ lit ",";
      lit "      " ++ q "message" ++ lit ": " ++ q "Detailed insight message with specific numbers when possible" ++ lit ",";
      lit "      " ++ q "action" ++ lit ": " ++ q "Actionable suggestion" ++ lit ",";
      lit "      " ++ q "confidence" ++ lit ": 0.8";
      lit "    }]";
      [];
      lit "    Focus on:";
      lit "    1. Spending patterns (day of week, categories)";
      lit "    2. Budget alerts (high spending areas)";
      lit "    3. Money-saving opportunities";
      lit "    4. Positive reinforcement for good habits";
      [];
      lit "    Expense Data:";
      lit "    " ++ JSON_stringify P (expensesSummary expenses);
      lit "    " ].

(** The callback of [insights.map]. *)
Definition formatInsight (insight : JSValue) (index : nat) : M Insight.AIInsight :=
  now <- call Date_now ;;
  type <- liftR (getProp insight (lit "type")) ;;
  title <- liftR (getProp insight (lit "title")) ;;
  message <- liftR (getProp insight (lit "message")) ;;
  action <- liftR (getProp insight (lit "action")) ;;
  confidence <- liftR (getProp insight (lit "confidence")) ;;
  ret {| Insight.id := lit "ai-" ++ of_Z now ++ lit "-" ++ of_nat index;
         Insight.type := or_else type (JStr (lit "info"));
         Insight.title := or_else title (JStr (lit "AI Insight"));
         Insight.message := or_else message (JStr (lit "Analysis complete"));
         Insight.action := action;
         Insight.confidence := or_else confidence (JNum 0.8) |}.

(** [insights.map(callback)]: only an array has a [map] method among the
    values [JSON.parse] builds. *)
Definition insights_map {B} (insights : JSValue) (callback : JSValue -> nat -> M B) :
    M (list B) :=
  match insights with
  | JArr elems => mapM_from callback elems 0
  | _ => raise (TypeError (lit "insights.map is not a function"))
  end.

(** [!text] for the text of a response. *)
Definition no_text (text : option jsstring) : bool :=
  match text with
  | Some (_ :: _) => false
  | _ => true
  end.

(** The string a text is once it has passed the [!text] test. *)
Definition text_of (text : option jsstring) : jsstring :=
  match text with
  | Some s => s
  | None => []
  end.

Definition fallbackInsight : Insight.AIInsight :=
  {| Insight.id := lit "fallback-1";
     Insight.type := JStr (lit "info");
     Insight.title := JStr (lit "AI Analysis Unavailable");
     Insight.message := JStr (lit "Unable to generate personalized insights at this time. Please try again later.");
     Insight.action := JStr (lit "Refresh insights");
     Insight.confidence := JNum 0.5 |}.

(** U+274C, the cross mark that starts every console line. *)
Definition cross_mark : jsstring := [10060%N].

Definition generateExpenseInsights (expenses : list ExpenseRecord) :
    M (list Insight.AIInsight) :=
  catch
    (let model := insightsModel in
     let prompt := insightsPrompt expenses in
     result <- generateContent model prompt ;;
     responseText <- liftR (response_text result) ;;
     if no_text responseText then raise (Error (lit "No response from AI"))
     else
       insights <- liftR (JSON_parse P (text_of responseText)) ;;
       formattedInsights <- insights_map insights formatInsight ;;
       ret formattedInsights)
    (fun error =>
       console_error
         (cross_mark ++ lit " Error generating AI insights with Gemini:", error) ;;
       ret [fallbackInsight]).

Definition validCategories : list jsstring :=
  [ lit "Food"; lit "Transportation"; lit "Entertainment"; lit "Shopping";
    lit "Bills"; lit "Healthcare"; lit "Other" ].

Definition categorizePrompt (description : jsstring) : jsstring :=
  lines
    [ lit "You are an expense categorization AI. Categorize the following expense into one of these categories: Food, Transportation, Entertainment, Shopping, Bills, Healthcare, Other. Respond with only the single category name.";
      lit "    ";
      lit "    Expense: " ++ dquote ++ description ++ dquote ].

Definition categorizeExpense (description : jsstring) : M jsstring :=
  catch
    (let model := plainModel in
     let prompt := categorizePrompt description in
     result <- generateContent model prompt ;;
     text <- liftR (response_text result) ;;
     (* result.response.text()?.trim() *)
     let category := option_map trim text in
     (* validCategories.includes(category || '') ? category! : 'Other' *)
     ret (if includes validCategories (text_of category)
          then text_of category
          else lit "Other"))
    (fun error =>
       console_error
         (cross_mark ++ lit " Error categorizing expense with Gemini:", error) ;;
       ret (lit "Other")).

Definition answerPrompt (question : jsstring) (context : list ExpenseRecord) :
    jsstring :=
  lines
    [ lit "You are a helpful financial advisor AI. Based on the following expense data, provide a concise but thorough answer (2-3 sentences) to this question: " ++ dquote ++ question ++ dquote;
      [];
      lit "    Use concrete data from the expenses when possible and offer actionable advice. Return only the answer text.";
      [];
      lit "    Expense Data:";
      lit "    " ++ JSON_stringify P (expensesSummary context) ].

Definition apology : jsstring :=
  lit "I'm unable to provide a detailed answer at the moment. Please try refreshing the insights or check your connection.".

Definition generateAIAnswer (question : jsstring) (context : list ExpenseRecord) :
    M jsstring :=
  catch
    (let model := plainModel in
     let prompt := answerPrompt question context in
     result <- generateContent model prompt ;;
     response <- liftR (response_text result) ;;
     if no_text response then raise (Error (lit "No response from AI"))
     else ret (trim (text_of response)))
    (fun error =>
       console_error
         (cross_mark ++ lit " Error generating AI answer with Gemini:", error) ;;
       ret apology).

(** *** Vocabulary of the specification *)

(** The four insight types of the [AIInsight] interface. *)
Definition insightTypes : list jsstring :=
  [ lit "warning"; lit "info"; lit "success"; lit "tip" ].

Definition valid_type (v : JSValue) : bool :=
  match v with
  | JStr s => includes insightTypes s
  | _ => false
  end.

(** A number between 0 and 1. *)
Definition valid_confidence (v : JSValue) : bool :=
  match v with
  | JNum x => (PrimFloat.leb 0 x && PrimFloat.leb x 1)%bool
  | _ => false
  end.

Definition is_nullish (v : JSValue) : bool :=
  match v with
  | JUndefined | JNull => true
  | _ => false
  end.

(** The value of [v.name] when [v] is not nullish. *)
Definition prop (v : JSValue) (name : string) : JSValue :=
  match getProp v (lit name) with
  | inr x => x
  | inl _ => JUndefined
  end.

(** The insight the callback builds from element [insight] at position
    [index] when the clock reads [now]. *)
Definition formatted (insight : JSValue) (index : nat) (now : Z) :
    Insight.AIInsight :=
  {| Insight.id := lit "ai-" ++ of_Z now ++ lit "-" ++ of_nat index;
     Insight.type := or_else (prop insight "type") (JStr (lit "info"));
     Insight.title := or_else (prop insight "title") (JStr (lit "AI Insight"));
     Insight.message :=
       or_else (prop insight "message") (JStr (lit "Analysis complete"));
     Insight.action := prop insight "action";
     Insight.confidence := or_else (prop insight "confidence") (JNum 0.8) |}.

(** The insights built from the elements [xs], the first at position
    [index], with the clock readings [nows]. *)
Fixpoint formatted_from (xs : list JSValue) (index : nat) (nows : list Z) :
    list Insight.AIInsight :=
  match xs, nows with
  | x :: xs', now :: nows' =>
      formatted x index now :: formatted_from xs' (S index) nows'
  | _, _ => []
  end.

(** The console line of the insight call for error [e]. *)
Definition insightsLine (e : Thrown) : Out :=
  (cross_mark ++ lit " Error generating AI insights with Gemini:", e).

(** A field that is there: neither [undefined], [null] nor empty. *)
Definition present (ins : Insight.AIInsight) : Prop :=
  Insight.id ins <> []
  /\ truthy (Insight.type ins) = true
  /\ truthy (Insight.title ins) = true
  /\ truthy (Insight.message ins) = true
  /\ truthy (Insight.confidence ins) = true.

(** [result] is [upstream] when that is truthy and [default] otherwise. *)
Definition defaulted (upstream default result : JSValue) : Prop :=
  if truthy upstream then result = upstream else result = default.

(** What a program learns from the endpoint when it sends [prompt] to
    model [m] from trace [tr]: the text of the response, or what was
    thrown on the way. *)
Definition response (env : Env) (tr : Trace) (m : GenerativeModel)
    (prompt : jsstring) : Thrown + option jsstring :=
  match env _ (GenerateContent m prompt) tr with
  | inl e => inl e
  | inr result => response_text result
  end.

(** The trace once that call is answered. *)
Definition asked (env : Env) (tr : Trace) (m : GenerativeModel)
    (prompt : jsstring) : Trace :=
  tr ++ [Called (GenerateContent m prompt) (env _ (GenerateContent m prompt) tr)].

(** The requests to the model among the events of a trace. *)
Definition is_request (e : Event) : bool :=
  match e with
  | Called c _ =>
      match c with
      | GenerateContent _ _ => true
      | Date_now => false
      end
  | Logged _ => false
  end.

Definition requests (tr : Trace) : nat := List.length (filter is_request tr).

(** The console lines among the events of a trace. *)
Definition console (tr : Trace) : list Out :=
  flat_map (fun e : Event => match e with
                             | Logged line => [line]
                             | Called _ _ => []
                             end) tr.

(** What the summary keeps of an expense: everything but its id. *)
Definition without_id (expense : ExpenseRecord) :
    float * jsstring * jsstring * jsstring :=
  (amount expense, category expense, description expense, date expense).

(** The readings of [n] successive [Date.now()] calls made from [tr]. *)
Fixpoint clock_reads (env : Env) (tr : Trace) (n : nat) : list Z :=
  match n with
  | O => []
  | S n' =>
      let now := env _ Date_now tr in
      now :: clock_reads env (tr ++ [Called Date_now now]) n'
  end.

End WithPlatform.
End Gemini.

(** ** The user provisioner *)

Module Clerk.
Record EmailAddress : Type :=
  { emailAddress : jsstring }.

(** The session user [currentUser()] resolves to; the name parts are
    [string | null]. *)
Record User : Type :=
  { id : jsstring;
    emailAddresses : list EmailAddress;
    firstName : option jsstring;
    lastName : option jsstring;
    imageUrl : jsstring }.
End Clerk.

Module Prisma.
(** The [data] argument of [db.user.create]. *)
Record UserCreateInput : Type :=
  { clerkUserId : jsstring;
    email : jsstring;
    name : jsstring;
    imageUrl : jsstring }.
End Prisma.

Module CheckUser.
Import Prisma.

Section WithRows.

(** The rows of the user table, as the database client returns them. *)
Variable DbUser : Type.

(** The calls to the outside, each of which may throw: [currentUser()],
    [db.user.findUnique({ where: { clerkUserId } })] and
    [db.user.create({ data })]. *)
Inductive Call : Type -> Type :=
| CurrentUser : Call (Thrown + option Clerk.User)
| FindUnique (where_clerkUserId : jsstring) : Call (Thrown + option DbUser)
| Create (data : UserCreateInput) : Call (Thrown + DbUser).

(** The module writes nothing to the console. *)
Definition Out : Type := Empty_set.

Local Abbreviation M := (Effects.M Call Out).
Local Abbreviation Event := (Effects.Event Call Out).

(** String conversion of a [string | null] inside a template literal. *)
Definition to_string (v : option jsstring) : jsstring :=
  match v with
  | Some s => s
  | None => lit "null"
  end.

(** [emailAddresses[0].emailAddress]: index 0 of an empty array is
    [undefined], and reading a property of it throws. *)
Definition first_emailAddress (l : list Clerk.EmailAddress) : Thrown + jsstring :=
  match l with
  | e :: _ => inr (Clerk.emailAddress e)
  | [] => inl (TypeError (lit "Cannot read properties of undefined (reading 'emailAddress')"))
  end.

Definition checkUser : M (option DbUser) :=
  user <- call_or_throw CurrentUser ;;
  match user with
  | None => ret None
  | Some user =>
      existingUser <- call_or_throw (FindUnique (Clerk.id user)) ;;
      match existingUser with
      | Some existingUser => ret (Some existingUser)
      | None =>
          email0 <- liftR (first_emailAddress (Clerk.emailAddresses user)) ;;
          created <- call_or_throw
            (Create
               {| clerkUserId := Clerk.id user;
                  email := email0;
                  name := to_string (Clerk.firstName user) ++ lit " "
                          ++ to_string (Clerk.lastName user);
                  imageUrl := Clerk.imageUrl user |}) ;;
          ret (Some created)
      end
  end.

(** *** Vocabulary of the specification *)

(** The trace once the session is read. *)
Definition session_read (env : Effects.Env Call Out) (tr : Effects.Trace Call Out) :
    Effects.Trace Call Out :=
  tr ++ [Called CurrentUser (env _ CurrentUser tr)].

(** What the lookup of [user] answers once the session is read. *)
Definition found (env : Effects.Env Call Out) (tr : Effects.Trace Call Out)
    (user : Clerk.User) : Thrown + option DbUser :=
  env _ (FindUnique (Clerk.id user)) (session_read env tr).

(** The trace once [user] is looked up. *)
Definition looked_up (env : Effects.Env Call Out) (tr : Effects.Trace Call Out)
    (user : Clerk.User) : Effects.Trace Call Out :=
  session_read env tr ++ [Called (FindUnique (Clerk.id user)) (found env tr user)].

(** The database writes among the events of a trace. *)
Definition is_write (e : Event) : bool :=
  match e with
  | Called c _ =>
      match c with
      | Create _ => true
      | _ => false
      end
  | Logged _ => false
  end.

Definition is_db_call (e : Event) : bool :=
  match e with
  | Called c _ =>
      match c with
      | CurrentUser => false
      | _ => true
      end
  | Logged _ => false
  end.

(** The data of the [create] calls among the events of a trace. *)
Definition written (tr : Effects.Trace Call Out) : list UserCreateInput :=
  flat_map
    (fun e : Event =>
       match e with
       | Called c _ =>
           match c with
           | Create data => [data]
           | _ => []
           end
       | Logged _ => []
       end) tr.

End WithRows.

Arguments CurrentUser {DbUser}.
Arguments FindUnique {DbUser} where_clerkUserId.
Arguments Create {DbUser} data.
Arguments checkUser {DbUser}.
Arguments session_read {DbUser} env tr.
Arguments found {DbUser} env tr user.
Arguments looked_up {DbUser} env tr user.
Arguments written {DbUser} tr.
Arguments is_write {DbUser} e.
Arguments is_db_call {DbUser} e.

Abbreviation M DbUser := (Effects.M (Call DbUser) Out).
Abbreviation Env DbUser := (Effects.Env (Call DbUser) Out).
Abbreviation Event DbUser := (Effects.Event (Call DbUser) Out).
Abbreviation Trace DbUser := (Effects.Trace (Call DbUser) Out).

End CheckUser.

(** ** Concrete platforms and environments

    Used to run the programs on concrete inputs. *)

Module Scenarios.
Import Prisma.

(** What [JSON.parse] throws on a text that is not JSON. *)
Definition SyntaxError : Thrown := Foreign (JStr (lit "SyntaxError")).

Fixpoint parse_table (table : list (jsstring * JSValue)) (text : jsstring) :
    Thrown + JSValue :=
  match table with
  | [] => inl SyntaxError
  | (t, v) :: rest => if JsString.eqb text t then inr v else parse_table rest text
  end.

(** A platform restricted to what a scenario needs: [JSON.parse] is known
    on the texts of [table] and refuses every other text,
    [JSON.stringify] of the one summary of the scenario is [stringified]. *)
Definition platform (table : list (jsstring * JSValue)) (stringified : jsstring)
    (key : option jsstring) : Gemini.Platform :=
  {| Gemini.JSON_parse := parse_table table;
     Gemini.JSON_stringify := fun _ => stringified;
     Gemini.GEMINI_API_KEY := key |}.

(** An endpoint that gives the same answer to every prompt, and a clock
    that reads [clock k] after [k] events. *)
Definition scripted (answer : Thrown + Gemini.GenerateContentResult)
    (clock : nat -> Z) : Gemini.Env :=
  fun X c tr =>
    match c in Gemini.Call X return X with
    | Gemini.GenerateContent _ _ => answer
    | Gemini.Date_now => clock (List.length tr)
    end.

(** The endpoint answers with the text [text]. *)
Definition says (text : jsstring) : Thrown + Gemini.GenerateContentResult :=
  inr {| Gemini.response_text := inr (Some text) |}.

(** The request fails. *)
Definition fails : Thrown + Gemini.GenerateContentResult :=
  inl (Foreign (JStr (lit "fetch failed"))).

(** A clock that starts at 1700000000000 ms and advances by one
    millisecond per event. *)
Definition ticking (k : nat) : Z := 1700000000000 + Z.of_nat k.

Definition lunch : Expense.ExpenseRecord :=
  {| Expense.id := lit "1";
     Expense.amount := 50;
     Expense.category := lit "Food";
     Expense.description := lit "Lunch";
     Expense.date := lit "2024-01-01" |}.

(** [JSON.stringify([summary of lunch], null, 2)] *)
Definition lunch_stringified : jsstring :=
  lines
    [ lit "[";
      lit "  {";
      lit "    " ++ Gemini.q "amount" ++ lit ": 50,";
      lit "    " ++ Gemini.q "category" ++ lit ": " ++ Gemini.q "Food" ++ lit ",";
      lit "    " ++ Gemini.q "description" ++ lit ": " ++ Gemini.q "Lunch" ++ lit ",";
      lit "    " ++ Gemini.q "date" ++ lit ": " ++ Gemini.q "2024-01-01";
      lit "  }";
      lit "]" ].

(** The JSON text of an array with one object whose type is not an
    insight type and whose confidence is 5. *)
Definition banana_text : jsstring :=
  lit "[{" ++ Gemini.q "type" ++ lit ":" ++ Gemini.q "banana" ++ lit ","
  ++ Gemini.q "confidence" ++ lit ":5}]".

Definition banana_value : JSValue :=
  JArr [ JObj [ (lit "type", JStr (lit "banana")); (lit "confidence", JNum 5) ] ].

(** The JSON text of an array of two insights, the second with nothing
    but a title. *)
Definition two_text : jsstring :=
  lit "[{" ++ Gemini.q "type" ++ lit ":" ++ Gemini.q "tip" ++ lit ","
  ++ Gemini.q "title" ++ lit ":" ++ Gemini.q "Cook at home" ++ lit ","
  ++ Gemini.q "message" ++ lit ":" ++ Gemini.q "Food is 60% of spending" ++ lit ","
  ++ Gemini.q "action" ++ lit ":" ++ Gemini.q "Plan meals" ++ lit ","
  ++ Gemini.q "confidence" ++ lit ":0.5},{"
  ++ Gemini.q "title" ++ lit ":" ++ Gemini.q "On track" ++ lit "}]".

Definition two_elems : list JSValue :=
  [ JObj [ (lit "type", JStr (lit "tip"));
           (lit "title", JStr (lit "Cook at home"));
           (lit "message", JStr (lit "Food is 60% of spending"));
           (lit "action", JStr (lit "Plan meals"));
           (lit "confidence", JNum 0.5) ];
    JObj [ (lit "title", JStr (lit "On track")) ] ].

Definition two_value : JSValue := JArr two_elems.

Definition json_table : list (jsstring * JSValue) :=
  [ (lit "[]", JArr []);
    (lit "[null,null]", JArr [JNull; JNull]);
    (lit "{}", JObj []);
    (banana_text, banana_value);
    (two_text, two_value) ].

(** The platform of the scenarios: the summary is that of [lunch]. *)
Definition lunch_platform : Gemini.Platform :=
  platform json_table lunch_stringified (Some (lit "secret")).

(** Modelled from the spec: the application database, whose client
    ([./db]) and schema are not part of the sources.  The user collection
    holds the rows created so far, [externalId] ([clerkUserId]) is a
    unique key, [findUnique] reads by that key and [create] stores the
    fields it is given and returns the stored row. *)
Definition rows_of (tr : CheckUser.Trace UserCreateInput) : list UserCreateInput :=
  flat_map
    (fun e : CheckUser.Event UserCreateInput =>
       match e with
       | Called c answer =>
           match c in CheckUser.Call _ X return X -> list UserCreateInput with
           | CheckUser.Create _ =>
               fun a => match a with inr row => [row] | inl _ => [] end
           | _ => fun _ => []
           end answer
       | Logged _ => []
       end) tr.

Definition has_key (key : jsstring) (row : UserCreateInput) : bool :=
  JsString.eqb (clerkUserId row) key.

Definition UniqueConstraint : Thrown :=
  Foreign (JStr (lit "Unique constraint failed on the fields: (clerkUserId)")).

(** An identity provider whose current session is [session], over a
    database that held [initial] when the trace began. *)
Definition memory_env (session : option Clerk.User) (initial : list UserCreateInput) :
    CheckUser.Env UserCreateInput :=
  fun X c tr =>
    match c in CheckUser.Call _ X return X with
    | CheckUser.CurrentUser => inr session
    | CheckUser.FindUnique key => inr (find (has_key key) (initial ++ rows_of tr))
    | CheckUser.Create data =>
        if existsb (has_key (clerkUserId data)) (initial ++ rows_of tr)
        then inl UniqueConstraint
        else inr data
    end.

(** A database that gives the same answers whatever it is asked. *)
Definition scripted_db (session : option Clerk.User)
    (lookup : Thrown + option UserCreateInput) (creation : Thrown + UserCreateInput) :
    CheckUser.Env UserCreateInput :=
  fun X c tr =>
    match c in CheckUser.Call _ X return X with
    | CheckUser.CurrentUser => inr session
    | CheckUser.FindUnique _ => lookup
    | CheckUser.Create _ => creation
    end.

Definition ConnectionLost : Thrown :=
  Foreign (JStr (lit "Can't reach database server")).

Definition ada : Clerk.User :=
  {| Clerk.id := lit "user_1";
     Clerk.emailAddresses := [ {| Clerk.emailAddress := lit "ada@example.com" |} ];
     Clerk.firstName := Some (lit "Ada");
     Clerk.lastName := Some (lit "Lovelace");
     Clerk.imageUrl := lit "https://img.example.com/ada.png" |}.

(** A session with no name and no email address. *)
Definition anonymous : Clerk.User :=
  {| Clerk.id := lit "user_2";
     Clerk.emailAddresses := [];
     Clerk.firstName := None;
     Clerk.lastName := None;
     Clerk.imageUrl := lit "https://img.example.com/default.png" |}.

(** A session with an email address and no name. *)
Definition nameless : Clerk.User :=
  {| Clerk.id := lit "user_3";
     Clerk.emailAddresses := [ {| Clerk.emailAddress := lit "x@example.com" |} ];
     Clerk.firstName := None;
     Clerk.lastName := None;
     Clerk.imageUrl := lit "https://img.example.com/default.png" |}.

Definition ada_row : UserCreateInput :=
  {| clerkUserId := lit "user_1";
     email := lit "ada@example.com";
     name := lit "Ada Lovelace";
     imageUrl := lit "https://img.example.com/ada.png" |}.

End Scenarios.

(** * Properties *)

(** ** Runs of the program monad *)

Module EffectsFacts.
Section WithSignature.
Context {Call : Type -> Type} {Out : Type}.
Abbreviation M := (Effects.M Call Out).
Abbreviation Env := (Effects.Env Call Out).
Abbreviation Trace := (Effects.Trace Call Out).

Lemma run_ret {A} (a : A) (env : Env) (tr : Trace) :
  run (ret a : M A) env tr = (inr a, tr).
Proof. reflexivity. Qed.

Lemma run_raise {A} (e : Thrown) (env : Env) (tr : Trace) :
  run (raise e : M A) env tr = (inl e, tr).
Proof. reflexivity. Qed.

Lemma run_bind {A B} (m : M A) (k : A -> M B) (env : Env) (tr : Trace) :
  run (bind m k) env tr =
  match run m env tr with
  | (inr a, tr') => run (k a) env tr'
  | (inl e, tr') => (inl e, tr')
  end.
Proof. reflexivity. Qed.

Lemma run_catch {A} (m : M A) (h : Thrown -> M A) (env : Env) (tr : Trace) :
  run (catch m h) env tr =
  match run m env tr with
  | (inr a, tr') => (inr a, tr')
  | (inl e, tr') => run (h e) env tr'
  end.
Proof. reflexivity. Qed.

Lemma run_liftR {A} (r : Thrown + A) (env : Env) (tr : Trace) :
  run (liftR r : M A) env tr = (r, tr).
Proof. destruct r; reflexivity. Qed.

Lemma run_call_or_throw {X} (c : Call (Thrown + X)%type) (env : Env) (tr : Trace) :
  run (call_or_throw c) env tr = (env _ c tr, tr ++ [Called c (env _ c tr)]).
Proof.
  unfold call_or_throw. rewrite run_bind. cbn.
  destruct (env _ c tr); reflexivity.
Qed.

End WithSignature.
End EffectsFacts.
Import EffectsFacts.

(** ** Strings *)

Module JsStringFacts.

Lemma eqb_eq (s t : jsstring) : JsString.eqb s t = true <-> s = t.
Proof.
  revert t. induction s as [|a s IH]; intros [|b t]; simpl; try easy.
  rewrite andb_true_iff, N.eqb_eq, IH. split.
  - intros [-> ->]. reflexivity.
  - intros H. injection H as -> ->. split; reflexivity.
Qed.

Lemma eqb_refl (s : jsstring) : JsString.eqb s s = true.
Proof. now apply eqb_eq. Qed.

Lemma includes_In (l : list jsstring) (s : jsstring) :
  includes l s = true <-> In s l.
Proof.
  unfold includes. rewrite existsb_exists. split.
  - intros [x [Hin Heq]]. apply eqb_eq in Heq. now subst.
  - intros Hin. exists s. split; [assumption | apply eqb_refl].
Qed.

Lemma includes_false (l : list jsstring) (s : jsstring) :
  includes l s = false <-> ~ In s l.
Proof.
  rewrite <- includes_In. destruct (includes l s); split; congruence.
Qed.


(** *** [trim] *)

Lemma trimStart_starts_clean (s : jsstring) : starts_clean (trimStart s).
Proof.
  induction s as [|c s IH]; simpl; [exact I|].
  destruct (is_white_space c) eqn:Hc; [assumption|]. simpl. assumption.
Qed.

Lemma trimStart_clean (s : jsstring) : starts_clean s -> trimStart s = s.
Proof. destruct s as [|c s]; simpl; [reflexivity|]. now intros ->. Qed.

Lemma trimStart_white (ws s : jsstring) :
  forallb is_white_space ws = true -> trimStart (ws ++ s) = trimStart s.
Proof.
  induction ws as [|c ws IH]; simpl; [reflexivity|].
  rewrite andb_true_iff. intros [-> Hws]. auto.
Qed.

Lemma trimStart_nil_iff (s : jsstring) :
  trimStart s = [] <-> forallb is_white_space s = true.
Proof.
  induction s as [|c s IH]; simpl; [tauto|].
  destruct (is_white_space c); simpl; [assumption|].
  split; discriminate.
Qed.

(** What [trimStart] keeps is a suffix, what it drops is white space. *)
Lemma trimStart_split (s : jsstring) :
  exists ws, s = ws ++ trimStart s /\ forallb is_white_space ws = true.
Proof.
  induction s as [|c s [ws [Hs Hws]]]; simpl.
  - exists []. auto.
  - destruct (is_white_space c) eqn:Hc.
    + exists (c :: ws). simpl. rewrite Hc, Hws. split; [congruence|reflexivity].
    + exists []. auto.
Qed.

Lemma starts_clean_prefix (a b : jsstring) :
  starts_clean (a ++ b) -> a <> [] -> starts_clean a.
Proof. destruct a; simpl; [congruence|auto]. Qed.

Lemma forallb_rev {A} (f : A -> bool) (l : list A) :
  forallb f (rev l) = forallb f l.
Proof.
  induction l as [|x l IH]; simpl; [reflexivity|].
  rewrite forallb_app, IH. simpl. rewrite andb_true_r. apply andb_comm.
Qed.

Lemma existsb_rev {A} (f : A -> bool) (l : list A) :
  existsb f (rev l) = existsb f l.
Proof.
  induction l as [|x l IH]; simpl; [reflexivity|].
  rewrite existsb_app, IH. simpl. rewrite orb_false_r. apply orb_comm.
Qed.

(** A trimmed string begins and ends with something else than white
    space. *)
Lemma trim_clean (s : jsstring) :
  starts_clean (trim s) /\ starts_clean (rev (trim s)).
Proof.
  unfold trim, trimEnd.
  set (t := trimStart s).
  assert (Ht : starts_clean t) by apply trimStart_starts_clean.
  destruct (trimStart_split (rev t)) as [ws [Hsplit Hws]].
  set (u := trimStart (rev t)) in *.
  rewrite rev_involutive. split; [|apply trimStart_starts_clean].
  destruct (rev u) as [|c r] eqn:Hu; [exact I|].
  assert (Heq : t = rev u ++ rev ws).
  { rewrite <- rev_app_distr, <- Hsplit. now rewrite rev_involutive. }
  rewrite Hu in Heq. rewrite Heq in Ht. exact Ht.
Qed.

(** Trimming what is trimmed changes nothing. *)
Lemma trim_idempotent (s : jsstring) : trim (trim s) = trim s.
Proof.
  destruct (trim_clean s) as [Hstart Hend].
  unfold trim at 1. unfold trimEnd.
  rewrite (trimStart_clean _ Hstart), (trimStart_clean _ Hend).
  apply rev_involutive.
Qed.

(** A string is trimmed to nothing exactly when it is all white space. *)
Lemma trim_nil_iff (s : jsstring) :
  trim s = [] <-> forallb is_white_space s = true.
Proof.
  unfold trim, trimEnd.
  destruct (trimStart_split s) as [ws [Hsplit Hws]].
  set (t := trimStart s) in *.
  assert (Hrev : rev (trimStart (rev t)) = [] <-> forallb is_white_space t = true).
  { rewrite <- (forallb_rev _ t), <- trimStart_nil_iff.
    split; intros H.
    - apply (f_equal (@rev N)) in H. now rewrite rev_involutive in H.
    - now rewrite H. }
  rewrite Hrev. clearbody t. rewrite Hsplit, forallb_app, Hws. simpl. tauto.
Qed.

(** White space around a string that begins and ends with something else
    is what [trim] removes. *)
Lemma trim_padded (before core after : jsstring) :
  core <> [] -> starts_clean core -> starts_clean (rev core) ->
  forallb is_white_space before = true ->
  forallb is_white_space after = true ->
  trim (before ++ core ++ after) = core.
Proof.
  intros Hne Hstart Hend Hbefore Hafter. unfold trim, trimEnd.
  rewrite trimStart_white by assumption.
  rewrite (trimStart_clean (core ++ after))
    by (destruct core; [congruence|exact Hstart]).
  rewrite rev_app_distr, trimStart_white by now rewrite forallb_rev.
  rewrite (trimStart_clean (rev core)) by assumption.
  apply rev_involutive.
Qed.

(** *** Literals and decimal numerals *)

Lemma lit_inj (s t : string) : lit s = lit t -> s = t.
Proof.
  unfold lit. intros H.
  rewrite <- (string_of_list_ascii_of_string s), <- (string_of_list_ascii_of_string t).
  f_equal. revert H. generalize (list_ascii_of_string s) (list_ascii_of_string t).
  induction l as [|a l IH]; intros [|b l']; simpl; try discriminate; [reflexivity|].
  intros H. injection H as Hab Hl. f_equal; [|now apply IH].
  rewrite <- (ascii_N_embedding a), <- (ascii_N_embedding b). now f_equal.
Qed.

Lemma to_int_not_nil (z : Z) :
  Z.to_int z <> Decimal.Pos Decimal.Nil /\ Z.to_int z <> Decimal.Neg Decimal.Nil.
Proof.
  destruct z; simpl; split; try discriminate;
    intros H; injection H as H; now apply DecimalPos.Unsigned.to_uint_nonnil in H.
Qed.

(** Distinct integers have distinct numerals. *)
Lemma of_Z_inj (a b : Z) : of_Z a = of_Z b -> a = b.
Proof.
  unfold of_Z. intros H. apply lit_inj in H.
  apply DecimalZ.to_int_inj.
  destruct (to_int_not_nil a) as [Ha Ha'], (to_int_not_nil b) as [Hb Hb'].
  pose proof (NilZero.isi _ Ha Ha') as Hia.
  pose proof (NilZero.isi _ Hb Hb') as Hib.
  rewrite H in Hia. congruence.
Qed.

Lemma of_nat_inj (n m : nat) : of_nat n = of_nat m -> n = m.
Proof. unfold of_nat. intros H. apply of_Z_inj in H. lia. Qed.

Lemma digits_no_dash (d : Decimal.uint) :
  existsb is_dash (lit (NilEmpty.string_of_uint d)) = false.
Proof. induction d; simpl; auto. Qed.

(** The numeral of a natural number has no minus sign in it. *)
Lemma of_nat_no_dash (n : nat) : existsb is_dash (of_nat n) = false.
Proof.
  unfold of_nat, of_Z.
  destruct (Z.of_nat n) eqn:Hn; simpl; [reflexivity| |lia].
  unfold NilZero.string_of_uint.
  destruct (Pos.to_uint p) eqn:Hp; try apply digits_no_dash.
  reflexivity.
Qed.

(** What follows the last dash of a string is determined by the string. *)
Lemma after_last_dash (a a' i i' : jsstring) :
  existsb is_dash i = false -> existsb is_dash i' = false ->
  a ++ 45%N :: i = a' ++ 45%N :: i' -> i = i'.
Proof.
  intros Hi Hi' H.
  apply (f_equal (@rev N)) in H. rewrite !rev_app_distr in H. simpl in H.
  rewrite <- !app_assoc in H. simpl in H.
  rewrite <- (rev_involutive i), <- (rev_involutive i'). f_equal.
  rewrite <- (existsb_rev is_dash i) in Hi.
  rewrite <- (existsb_rev is_dash i') in Hi'.
  revert H Hi Hi'. generalize (rev i) (rev i') (rev a) (rev a').
  induction l as [|c l IH]; intros [|c' l'] r r'; simpl; intros H Hl Hl'.
  - reflexivity.
  - injection H as <- _. discriminate.
  - injection H as -> _. discriminate.
  - injection H as <- H. f_equal. apply orb_false_iff in Hl, Hl'.
    eapply IH; [eassumption|tauto|tauto].
Qed.

End JsStringFacts.
Import JsStringFacts.

(** ** The insight generator *)

Module GeminiFacts.
Import Gemini.

Section WithPlatform.
Variable P : Platform.

Lemma run_generateContent (m : GenerativeModel) (prompt : jsstring)
    (env : Env) (tr : Trace) :
  run (generateContent m prompt) env tr =
  (env _ (GenerateContent m prompt) tr, asked env tr m prompt).
Proof. unfold generateContent. apply run_call_or_throw. Qed.

(** Sending a prompt and reading the text of the response. *)
Lemma run_ask {A} (m : GenerativeModel) (prompt : jsstring)
    (k : option jsstring -> M A) (env : Env) (tr : Trace) :
  run (result <- generateContent m prompt ;;
       text <- liftR (response_text result) ;;
       k text) env tr =
  match response env tr m prompt with
  | inr text => run (k text) env (asked env tr m prompt)
  | inl e => (inl e, asked env tr m prompt)
  end.
Proof.
  rewrite run_bind, run_generateContent. unfold response.
  destruct (env _ (GenerateContent m prompt) tr) as [e|result]; [reflexivity|].
  rewrite run_bind, run_liftR.
  destruct (response_text result); reflexivity.
Qed.

Lemma getProp_prop (x : JSValue) (name : string) :
  is_nullish x = false -> getProp x (lit name) = inr (prop x name).
Proof. unfold prop. destruct x; simpl; congruence. Qed.

(** The callback on an element that is neither [null] nor [undefined]. *)
Lemma run_formatInsight (x : JSValue) (index : nat) (env : Env) (tr : Trace) :
  is_nullish x = false ->
  run (formatInsight x index) env tr =
  (inr (formatted x index (env _ Date_now tr)),
   tr ++ [Called Date_now (env _ Date_now tr)]).
Proof.
  intros Hx. unfold formatInsight.
  rewrite run_bind. cbn [call run].
  repeat (rewrite run_bind, run_liftR, getProp_prop by assumption).
  reflexivity.
Qed.

(** The callback on [null] or [undefined]: the clock is read, then the
    first property access throws. *)
Lemma run_formatInsight_nullish (x : JSValue) (index : nat) (env : Env) (tr : Trace) :
  is_nullish x = true ->
  exists e,
    run (formatInsight x index) env tr =
    (inl e, tr ++ [Called Date_now (env _ Date_now tr)]).
Proof.
  intros Hx. unfold formatInsight. rewrite run_bind. cbn [call run].
  rewrite run_bind, run_liftR.
  destruct x; try discriminate; eexists; reflexivity.
Qed.

Lemma length_clock_reads (env : Env) (n : nat) (tr : Trace) :
  List.length (clock_reads env tr n) = n.
Proof.
  revert tr. induction n as [|n IH]; intros tr; simpl; [reflexivity|].
  now rewrite IH.
Qed.

(** [insights.map] over elements none of which is nullish: one clock
    reading per element, in order, and nothing else happens. *)
Lemma run_mapM_formatInsight (xs : list JSValue) (index : nat) (env : Env) (tr : Trace) :
  Forall (fun x => is_nullish x = false) xs ->
  run (mapM_from formatInsight xs index) env tr =
  (inr (formatted_from xs index (clock_reads env tr (List.length xs))),
   tr ++ map (Called Date_now) (clock_reads env tr (List.length xs))).
Proof.
  intros Hxs. revert index tr.
  induction Hxs as [|x xs Hx Hxs IH]; intros index tr.
  - simpl. now rewrite app_nil_r.
  - cbn [mapM_from]. rewrite run_bind, run_formatInsight by assumption.
    rewrite run_bind, IH. cbn [List.length clock_reads formatted_from map].
    rewrite <- app_assoc. reflexivity.
Qed.

(** [insights.map] returns one result per element when no callback
    throws. *)
Lemma length_mapM_from {A B} (f : A -> nat -> M B) (l : list A) (index : nat)
    (env : Env) (tr tr' : Trace) (r : list B) :
  run (mapM_from f l index) env tr = (inr r, tr') -> List.length r = List.length l.
Proof.
  revert index tr r. induction l as [|x l IH]; intros index tr r.
  - cbn. intros H. inversion H. reflexivity.
  - cbn [mapM_from]. rewrite run_bind.
    destruct (run (f x index) env tr) as [[e|y] tr1]; [discriminate|].
    rewrite run_bind.
    destruct (run (mapM_from f l (S index)) env tr1) as [[e|ys] tr2] eqn:Hrest;
      [discriminate|].
    rewrite run_ret. intros H. inversion H. subst.
    simpl. f_equal. eapply IH. eassumption.
Qed.

(** A nullish element makes [insights.map] throw. *)
Lemma run_mapM_formatInsight_nullish (xs : list JSValue) (index : nat)
    (env : Env) (tr : Trace) :
  existsb is_nullish xs = true ->
  exists e tr', run (mapM_from formatInsight xs index) env tr = (inl e, tr').
Proof.
  revert index tr. induction xs as [|x xs IH]; intros index tr; [discriminate|].
  simpl existsb. cbn [mapM_from]. rewrite run_bind.
  destruct (is_nullish x) eqn:Hx.
  - intros _. destruct (run_formatInsight_nullish x index env tr Hx) as [e He].
    exists e. eexists. rewrite He. reflexivity.
  - cbn [orb]. intros Hxs.
    destruct (IH (S index) (tr ++ [Called Date_now (env _ Date_now tr)]) Hxs)
      as [e [tr' He]].
    exists e, tr'.
    rewrite run_formatInsight by assumption. rewrite run_bind, He. reflexivity.
Qed.

Lemma Forall_not_nullish (xs : list JSValue) :
  existsb is_nullish xs = false -> Forall (fun x => is_nullish x = false) xs.
Proof.
  induction xs as [|x xs IH]; simpl; [constructor|].
  rewrite orb_false_iff. intros [Hx Hxs]. constructor; auto.
Qed.

(** Every run of the insight call, case by case. *)
Lemma run_generateExpenseInsights (expenses : list Expense.ExpenseRecord)
    (env : Env) (tr : Trace) :
  let tr1 := asked env tr (insightsModel P) (insightsPrompt P expenses) in
  run (generateExpenseInsights P expenses) env tr =
  match response env tr (insightsModel P) (insightsPrompt P expenses) with
  | inl e => (inr [fallbackInsight], tr1 ++ [Logged (insightsLine e)])
  | inr text =>
      if no_text text
      then (inr [fallbackInsight],
            tr1 ++ [Logged (insightsLine (Error (lit "No response from AI")))])
      else
        match JSON_parse P (text_of text) with
        | inl e => (inr [fallbackInsight], tr1 ++ [Logged (insightsLine e)])
        | inr insights =>
            match run (insights_map insights formatInsight) env tr1 with
            | (inr r, tr2) => (inr r, tr2)
            | (inl e, tr2) => (inr [fallbackInsight], tr2 ++ [Logged (insightsLine e)])
            end
        end
  end.
Proof.
  intros tr1. unfold generateExpenseInsights. cbv zeta.
  rewrite run_catch, run_ask. fold tr1.
  destruct (response env tr (insightsModel P) (insightsPrompt P expenses))
    as [e|text]; [reflexivity|].
  destruct (no_text text); [reflexivity|].
  rewrite run_bind, run_liftR.
  destruct (JSON_parse P (text_of text)) as [e|insights]; [reflexivity|].
  rewrite run_bind.
  destruct (run (insights_map insights formatInsight) env tr1) as [[e|r] tr2];
    reflexivity.
Qed.

(** The insight call on an array without nullish elements. *)
Lemma run_insights_of_array (expenses : list Expense.ExpenseRecord)
    (env : Env) (tr : Trace) (text : jsstring) (xs : list JSValue) :
  response env tr (insightsModel P) (insightsPrompt P expenses) = inr (Some text) ->
  text <> [] ->
  JSON_parse P text = inr (JArr xs) ->
  existsb is_nullish xs = false ->
  let tr1 := asked env tr (insightsModel P) (insightsPrompt P expenses) in
  let nows := clock_reads env tr1 (List.length xs) in
  run (generateExpenseInsights P expenses) env tr =
  (inr (formatted_from xs 0 nows), tr1 ++ map (Called Date_now) nows).
Proof.
  intros Hresp Htext Hparse Hxs tr1 nows.
  pose proof (run_generateExpenseInsights expenses env tr) as Hrun.
  cbv zeta in Hrun. rewrite Hresp in Hrun.
  destruct text as [|c text]; [congruence|].
  cbn [no_text text_of] in Hrun. rewrite Hparse in Hrun.
  cbn [insights_map] in Hrun.
  rewrite run_mapM_formatInsight in Hrun by now apply Forall_not_nullish.
  exact Hrun.
Qed.

(** The insight call on an array with a nullish element. *)
Lemma run_insights_of_nullish (expenses : list Expense.ExpenseRecord)
    (env : Env) (tr : Trace) (text : jsstring) (xs : list JSValue) :
  response env tr (insightsModel P) (insightsPrompt P expenses) = inr (Some text) ->
  text <> [] ->
  JSON_parse P text = inr (JArr xs) ->
  existsb is_nullish xs = true ->
  fst (run (generateExpenseInsights P expenses) env tr) = inr [fallbackInsight].
Proof.
  intros Hresp Htext Hparse Hxs.
  pose proof (run_generateExpenseInsights expenses env tr) as Hrun.
  cbv zeta in Hrun. rewrite Hresp in Hrun.
  destruct text as [|c text]; [congruence|].
  cbn [no_text text_of] in Hrun. rewrite Hparse in Hrun.
  cbn [insights_map] in Hrun.
  destruct (run_mapM_formatInsight_nullish xs 0 env
              (asked env tr (insightsModel P) (insightsPrompt P expenses)) Hxs)
    as [e [tr' Hmap]].
  rewrite Hmap in Hrun. now rewrite Hrun.
Qed.

Lemma nth_error_formatted_from (xs : list JSValue) (nows : list Z) (index i : nat)
    (x : JSValue) :
  List.length nows = List.length xs ->
  nth_error xs i = Some x ->
  exists now,
    nth_error nows i = Some now
    /\ nth_error (formatted_from xs index nows) i = Some (formatted x (index + i) now).
Proof.
  revert nows index i. induction xs as [|y xs IH]; intros nows index i Hlen Hx.
  - destruct i; discriminate.
  - destruct nows as [|now nows]; [discriminate|].
    destruct i as [|i]; simpl in *.
    + injection Hx as ->. exists now. now rewrite Nat.add_0_r.
    + injection Hlen as Hlen.
      destruct (IH nows (S index) i Hlen Hx) as [now' [Hnow Hins]].
      exists now'. split; [assumption|].
      rewrite Hins. now rewrite Nat.add_succ_r.
Qed.

Lemma length_formatted_from (xs : list JSValue) (nows : list Z) (index : nat) :
  List.length nows = List.length xs ->
  List.length (formatted_from xs index nows) = List.length xs.
Proof.
  revert nows index. induction xs as [|y xs IH]; intros [|now nows] index Hlen;
    simpl in *; try discriminate; try reflexivity.
  injection Hlen as Hlen. now rewrite IH.
Qed.

Lemma In_formatted_from (xs : list JSValue) (nows : list Z) (index : nat)
    (ins : Insight.AIInsight) :
  In ins (formatted_from xs index nows) ->
  exists x i now, In x xs /\ ins = formatted x i now.
Proof.
  revert nows index. induction xs as [|y xs IH]; intros [|now nows] index;
    simpl; try contradiction.
  intros [<-|Hin].
  - exists y, index, now. auto.
  - destruct (IH _ _ Hin) as [x [i [now' [Hx ->]]]]. exists x, i, now'. auto.
Qed.

Lemma truthy_or_else (a d : JSValue) :
  truthy d = true -> truthy (or_else a d) = true.
Proof. unfold or_else. destruct (truthy a) eqn:Ha; auto. Qed.

Lemma defaulted_or_else (a d : JSValue) : defaulted a d (or_else a d).
Proof. unfold defaulted, or_else. destruct (truthy a); reflexivity. Qed.

Lemma present_formatted (x : JSValue) (i : nat) (now : Z) :
  present (formatted x i now).
Proof.
  unfold present, formatted; cbn [Insight.id Insight.type Insight.title
    Insight.message Insight.confidence].
  repeat split; try (apply truthy_or_else; reflexivity).
  discriminate.
Qed.

Lemma present_fallbackInsight : present fallbackInsight.
Proof. repeat split. discriminate. Qed.

Lemma valid_or_else (valid : JSValue -> bool) (a d : JSValue) :
  (truthy a = true -> valid a = true) -> valid d = true ->
  valid (or_else a d) = true.
Proof. unfold or_else. destruct (truthy a); auto. Qed.

Lemma run_categorizeExpense (description : jsstring) (env : Env) (tr : Trace) :
  let tr1 := asked env tr (plainModel P) (categorizePrompt description) in
  run (categorizeExpense P description) env tr =
  match response env tr (plainModel P) (categorizePrompt description) with
  | inl e =>
      (inr (lit "Other"),
       tr1 ++ [Logged (cross_mark ++ lit " Error categorizing expense with Gemini:", e)])
  | inr text =>
      (inr (if includes validCategories (text_of (option_map trim text))
            then text_of (option_map trim text)
            else lit "Other"), tr1)
  end.
Proof.
  intros tr1. unfold categorizeExpense. cbv zeta.
  rewrite run_catch, run_ask. fold tr1.
  destruct (response env tr (plainModel P) (categorizePrompt description));
    reflexivity.
Qed.

Lemma run_generateAIAnswer (question : jsstring)
    (context : list Expense.ExpenseRecord) (env : Env) (tr : Trace) :
  let tr1 := asked env tr (plainModel P) (answerPrompt P question context) in
  run (generateAIAnswer P question context) env tr =
  match response env tr (plainModel P) (answerPrompt P question context) with
  | inl e =>
      (inr apology,
       tr1 ++ [Logged (cross_mark ++ lit " Error generating AI answer with Gemini:", e)])
  | inr text =>
      if no_text text
      then (inr apology,
            tr1 ++ [Logged (cross_mark ++ lit " Error generating AI answer with Gemini:",
                            Error (lit "No response from AI"))])
      else (inr (trim (text_of text)), tr1)
  end.
Proof.
  intros tr1. unfold generateAIAnswer. cbv zeta.
  rewrite run_catch, run_ask. fold tr1.
  destruct (response env tr (plainModel P) (answerPrompt P question context))
    as [e|text]; [reflexivity|].
  destruct (no_text text); reflexivity.
Qed.

(** The three operations always return: whatever is thrown inside is
    caught. *)
Lemma generateExpenseInsights_returns (expenses : list Expense.ExpenseRecord)
    (env : Env) (tr : Trace) :
  exists r, fst (run (generateExpenseInsights P expenses) env tr) = inr r.
Proof.
  pose proof (run_generateExpenseInsights expenses env tr) as Hrun.
  cbv zeta in Hrun. rewrite Hrun.
  destruct (response env tr (insightsModel P) (insightsPrompt P expenses))
    as [e|text]; [eexists; reflexivity|].
  destruct (no_text text); [eexists; reflexivity|].
  destruct (JSON_parse P (text_of text)) as [e|insights]; [eexists; reflexivity|].
  destruct (run (insights_map insights formatInsight) env _) as [[e|r] tr2];
    eexists; reflexivity.
Qed.

Lemma categorizeExpense_returns (description : jsstring) (env : Env) (tr : Trace) :
  exists c, fst (run (categorizeExpense P description) env tr) = inr c.
Proof.
  pose proof (run_categorizeExpense description env tr) as Hrun.
  cbv zeta in Hrun. rewrite Hrun.
  destruct (response env tr (plainModel P) (categorizePrompt description));
    eexists; reflexivity.
Qed.

Lemma generateAIAnswer_returns (question : jsstring)
    (context : list Expense.ExpenseRecord) (env : Env) (tr : Trace) :
  exists a, fst (run (generateAIAnswer P question context) env tr) = inr a.
Proof.
  pose proof (run_generateAIAnswer question context env tr) as Hrun.
  cbv zeta in Hrun. rewrite Hrun.
  destruct (response env tr (plainModel P) (answerPrompt P question context))
    as [e|text]; [eexists; reflexivity|].
  destruct (no_text text); eexists; reflexivity.
Qed.


Lemma In_formatted_from_index (xs : list JSValue) (nows : list Z) (index : nat)
    (ins : Insight.AIInsight) :
  In ins (formatted_from xs index nows) ->
  exists x i now, index <= i /\ In x xs /\ ins = formatted x i now.
Proof.
  revert nows index. induction xs as [|y xs IH]; intros [|now nows] index;
    simpl; try contradiction.
  intros [<-|Hin].
  - exists y, index, now. auto.
  - destruct (IH _ _ Hin) as [x [i [now' [Hi [Hx ->]]]]].
    exists x, i, now'. repeat split; auto. lia.
Qed.

(** Two insights built at different positions have different ids,
    whatever the clock read. *)
Lemma formatted_id_inj (x y : JSValue) (i j : nat) (now now' : Z) :
  Insight.id (formatted x i now) = Insight.id (formatted y j now') -> i = j.
Proof.
  cbn [formatted Insight.id]. intros H.
  apply of_nat_inj.
  apply (after_last_dash (lit "ai-" ++ of_Z now) (lit "ai-" ++ of_Z now'));
    try apply of_nat_no_dash.
  rewrite <- !app_assoc. exact H.
Qed.

Lemma NoDup_ids_formatted_from (xs : list JSValue) (nows : list Z) (index : nat) :
  NoDup (map Insight.id (formatted_from xs index nows)).
Proof.
  revert nows index. induction xs as [|x xs IH]; intros [|now nows] index;
    simpl; try (constructor; fail).
  constructor; [|apply IH].
  intros Hin. apply in_map_iff in Hin. destruct Hin as [ins [Hid Hin]].
  apply In_formatted_from_index in Hin.
  destruct Hin as [y [j [now' [Hj [_ ->]]]]].
  apply (formatted_id_inj y x j index now' now) in Hid. lia.
Qed.

(** What the insight call returns is the fallback list or the formatting
    of the parsed array. *)
Lemma insights_shape (expenses : list Expense.ExpenseRecord)
    (env : Env) (tr : Trace) :
  exists r,
    fst (run (generateExpenseInsights P expenses) env tr) = inr r
    /\ (r = [fallbackInsight]
        \/ exists xs nows, List.length nows = List.length xs
                           /\ r = formatted_from xs 0 nows).
Proof.
  pose proof (run_generateExpenseInsights expenses env tr) as Hrun.
  cbv zeta in Hrun. rewrite Hrun. clear Hrun.
  destruct (response env tr (insightsModel P) (insightsPrompt P expenses))
    as [e|text]; [eexists; split; [reflexivity|now left]|].
  destruct (no_text text); [eexists; split; [reflexivity|now left]|].
  destruct (JSON_parse P (text_of text)) as [e|insights];
    [eexists; split; [reflexivity|now left]|].
  destruct insights as [| | | | |xs|]; cbn [insights_map]; rewrite ?run_raise;
    try (eexists; split; [reflexivity|now left]).
  destruct (existsb is_nullish xs) eqn:Hxs.
  - destruct (run_mapM_formatInsight_nullish xs 0 env
                (asked env tr (insightsModel P) (insightsPrompt P expenses)) Hxs)
      as [e [tr' ->]].
    eexists; split; [reflexivity|now left].
  - rewrite run_mapM_formatInsight by now apply Forall_not_nullish.
    eexists. split; [reflexivity|]. right.
    do 2 eexists. split; [|reflexivity]. apply length_clock_reads.
Qed.

Lemma console_app (a b : Trace) : console (a ++ b) = console a ++ console b.
Proof. unfold console. apply flat_map_app. Qed.

Lemma requests_app (a b : Trace) : requests (a ++ b) = requests a + requests b.
Proof. unfold requests. now rewrite filter_app, length_app. Qed.

Lemma console_clock (nows : list Z) : console (map (Called Date_now) nows) = [].
Proof. induction nows; simpl; auto. Qed.

Lemma requests_clock (nows : list Z) : requests (map (Called Date_now) nows) = 0.
Proof. unfold requests. induction nows; simpl; auto. Qed.

(** The events [insights.map] adds are clock readings. *)
Lemma mapM_formatInsight_reads (xs : list JSValue) (index : nat)
    (env : Env) (tr : Trace) :
  exists nows,
    snd (run (mapM_from formatInsight xs index) env tr)
    = tr ++ map (Called Date_now) nows.
Proof.
  revert index tr. induction xs as [|x xs IH]; intros index tr.
  - exists []. simpl. now rewrite app_nil_r.
  - cbn [mapM_from]. rewrite run_bind.
    destruct (is_nullish x) eqn:Hx.
    + destruct (run_formatInsight_nullish x index env tr Hx) as [e ->].
      exists [env _ Date_now tr]. reflexivity.
    + rewrite run_formatInsight by assumption. rewrite run_bind.
      destruct (IH (S index) (tr ++ [Called Date_now (env _ Date_now tr)]))
        as [nows Hnows].
      exists (env _ Date_now tr :: nows).
      destruct (run (mapM_from formatInsight xs (S index)) env _) as [[e|ys] tr2];
        cbn [snd] in *; rewrite ?run_ret; cbn [snd]; rewrite Hnows;
        now rewrite <- app_assoc.
Qed.

End WithPlatform.
End GeminiFacts.

(** ** The insight generator against its specification *)

Module GeminiSpec.
Import Gemini GeminiFacts Scenarios.

(** C2.  Whenever the model call throws, the response text is empty or
    missing, or the text is not parsable JSON, [generateExpenseInsights]
    returns exactly the one-element fallback list — id "fallback-1", type
    "info", title "AI Analysis Unavailable", the fixed message, action
    "Refresh insights", confidence 0.5 — and it returns it: nothing is
    thrown to the caller. *)
Theorem insights_fallback_on_failure (P : Platform)
    (expenses : list Expense.ExpenseRecord) (env : Env) (tr : Trace) :
  let answer := response env tr (insightsModel P) (insightsPrompt P expenses) in
  (exists e, answer = inl e)
  \/ answer = inr (Some []) \/ answer = inr None
  \/ (exists text e, answer = inr (Some text) /\ JSON_parse P text = inl e) ->
  fst (run (generateExpenseInsights P expenses) env tr) =
  inr [ {| Insight.id := lit "fallback-1";
           Insight.type := JStr (lit "info");
           Insight.title := JStr (lit "AI Analysis Unavailable");
           Insight.message :=
             JStr (lit "Unable to generate personalized insights at this time. Please try again later.");
           Insight.action := JStr (lit "Refresh insights");
           Insight.confidence := JNum 0.5 |} ].
Proof.
  intros answer H. subst answer.
  pose proof (run_generateExpenseInsights P expenses env tr) as Hrun.
  cbv zeta in Hrun. rewrite Hrun. clear Hrun.
  destruct H as [[e ->]|[->|[->|[text [e [-> Hparse]]]]]]; try reflexivity.
  destruct text as [|c text]; [reflexivity|].
  cbn [no_text text_of]. rewrite Hparse. reflexivity.
Qed.

(** The scenario of the specification: one lunch expense, and the request
    to the model fails. *)
Lemma insights_fallback_witness :
  fst (run (generateExpenseInsights lunch_platform [lunch])
         (scripted fails ticking) []) =
  inr [ {| Insight.id := lit "fallback-1";
           Insight.type := JStr (lit "info");
           Insight.title := JStr (lit "AI Analysis Unavailable");
           Insight.message :=
             JStr (lit "Unable to generate personalized insights at this time. Please try again later.");
           Insight.action := JStr (lit "Refresh insights");
           Insight.confidence := JNum 0.5 |} ].
Proof.
  apply (insights_fallback_on_failure lunch_platform [lunch]
           (scripted fails ticking) []).
  left. eexists. reflexivity.
Defined.

(** A run that ends with the fallback list is not a run that returns the
    empty list. *)
Ltac only_fallback :=
  eexists; split; [reflexivity|]; split; [discriminate|];
  let H := fresh in let Hp := fresh in
  intros [? [H [? Hp]]]; try discriminate;
  injection H as <-; congruence.

(** C5, as stated, fails: when the model answers with the empty JSON
    array, the list returned is empty. *)
Lemma insights_empty_counterexample :
  JSON_parse lunch_platform (lit "[]") = inr (JArr [])
  /\ fst (run (generateExpenseInsights lunch_platform [lunch])
            (scripted (says (lit "[]")) ticking) []) = inr [].
Proof. split; vm_compute; reflexivity. Qed.

(** C5, amended.  [generateExpenseInsights] always returns a list, and
    the list is empty in one case only: the call succeeded with a text
    that parses as the empty JSON array. *)
Theorem insights_empty_iff (P : Platform)
    (expenses : list Expense.ExpenseRecord) (env : Env) (tr : Trace) :
  exists r,
    fst (run (generateExpenseInsights P expenses) env tr) = inr r
    /\ (r = [] <->
        exists text,
          response env tr (insightsModel P) (insightsPrompt P expenses)
            = inr (Some text)
          /\ text <> []
          /\ JSON_parse P text = inr (JArr [])).
Proof.
  pose proof (run_generateExpenseInsights P expenses env tr) as Hrun.
  cbv zeta in Hrun. rewrite Hrun. clear Hrun.
  destruct (response env tr (insightsModel P) (insightsPrompt P expenses))
    as [e|[[|c text]|]]; cbn [no_text text_of]; try solve [only_fallback].
  destruct (JSON_parse P (c :: text)) as [e|insights] eqn:Hparse;
    [solve [only_fallback]|].
  destruct insights as [| | | | |xs|]; cbn [insights_map]; rewrite ?run_raise;
    try solve [only_fallback].
  destruct xs as [|x xs].
  { exists []. split; [reflexivity|]. split; [|reflexivity].
    intros _. exists (c :: text). repeat split; [discriminate|assumption]. }
  destruct (run (mapM_from formatInsight (x :: xs) 0) env _) as [[e|r] tr2] eqn:Hmap;
    [solve [only_fallback]|].
  exists r. split; [reflexivity|].
  apply length_mapM_from in Hmap. split.
  - intros ->. discriminate.
  - intros [text' [H [_ Hp]]]. injection H as <-. congruence.
Qed.

(** C9, as stated, fails: an array of two [null] elements parses as a
    JSON array of length two, and the list returned is the one-element
    fallback list. *)
Lemma insights_length_counterexample :
  JSON_parse lunch_platform (lit "[null,null]") = inr (JArr [JNull; JNull])
  /\ fst (run (generateExpenseInsights lunch_platform [lunch])
            (scripted (says (lit "[null,null]")) ticking) [])
     = inr [fallbackInsight]
  /\ List.length [fallbackInsight] <> List.length [JNull; JNull].
Proof. repeat split; try (vm_compute; reflexivity). discriminate. Qed.

(** C9, amended.  When the model call succeeds and the response parses as
    a JSON array none of whose elements is [null], the list returned has
    the length of the array and its order: the clock is read once per
    element, and the i-th insight is built from the i-th element, with
    the id "ai-<i-th clock reading>-<i>". *)
Theorem insights_in_order (P : Platform)
    (expenses : list Expense.ExpenseRecord) (env : Env) (tr : Trace)
    (text : jsstring) (xs : list JSValue) :
  response env tr (insightsModel P) (insightsPrompt P expenses) = inr (Some text) ->
  text <> [] ->
  JSON_parse P text = inr (JArr xs) ->
  existsb is_nullish xs = false ->
  exists r nows,
    run (generateExpenseInsights P expenses) env tr =
      (inr r,
       asked env tr (insightsModel P) (insightsPrompt P expenses)
       ++ map (Called Date_now) nows)
    /\ List.length r = List.length xs
    /\ List.length nows = List.length xs
    /\ forall i x,
         nth_error xs i = Some x ->
         exists now ins,
           nth_error nows i = Some now
           /\ nth_error r i = Some ins
           /\ ins = formatted x i now
           /\ Insight.id ins = lit "ai-" ++ of_Z now ++ lit "-" ++ of_nat i.
Proof.
  intros Hresp Htext Hparse Hxs.
  pose proof (run_insights_of_array P expenses env tr text xs
                Hresp Htext Hparse Hxs) as Hrun.
  cbv zeta in Hrun.
  set (nows := clock_reads env _ (List.length xs)) in *.
  assert (Hlen : List.length nows = List.length xs)
    by apply length_clock_reads.
  exists (formatted_from xs 0 nows), nows.
  split; [exact Hrun|]. split; [now apply length_formatted_from|].
  split; [assumption|].
  intros i x Hx.
  destruct (nth_error_formatted_from xs nows 0 i x Hlen Hx) as [now [Hnow Hins]].
  exists now, (formatted x i now). repeat split; assumption.
Qed.

(** Two insights come back for an array of two objects. *)
Lemma insights_in_order_witness :
  exists r nows,
    run (generateExpenseInsights lunch_platform [lunch])
      (scripted (says two_text) ticking) [] =
      (inr r,
       asked (scripted (says two_text) ticking) []
         (insightsModel lunch_platform) (insightsPrompt lunch_platform [lunch])
       ++ map (Called Date_now) nows)
    /\ List.length r = List.length two_elems
    /\ List.length nows = List.length two_elems
    /\ forall i x,
         nth_error two_elems i = Some x ->
         exists now ins,
           nth_error nows i = Some now
           /\ nth_error r i = Some ins
           /\ ins = formatted x i now
           /\ Insight.id ins = lit "ai-" ++ of_Z now ++ lit "-" ++ of_nat i.
Proof.
  apply (insights_in_order lunch_platform [lunch]
           (scripted (says two_text) ticking) [] two_text two_elems).
  - reflexivity.
  - discriminate.
  - vm_compute. reflexivity.
  - reflexivity.
Defined.

(** C1, as stated, fails: the model answers with a JSON array whose one
    element has type "banana" and confidence 5; both values are truthy,
    so both are returned as they are, and neither is valid. *)
Lemma insights_unvalidated_counterexample :
  JSON_parse lunch_platform banana_text = inr banana_value
  /\ exists ins,
       fst (run (generateExpenseInsights lunch_platform [lunch])
              (scripted (says banana_text) ticking) []) = inr [ins]
       /\ Insight.type ins = JStr (lit "banana")
       /\ Insight.confidence ins = JNum 5
       /\ valid_type (Insight.type ins) = false
       /\ valid_confidence (Insight.confidence ins) = false.
Proof.
  split; [vm_compute; reflexivity|].
  eexists. split; [vm_compute; reflexivity|].
  repeat split.
Qed.

(** C1, amended.  For every expense list and every response that parses
    as a JSON array, every insight returned has its required fields: id,
    type, title, message and confidence are never [undefined], [null] or
    empty.  Each insight is the fallback insight or comes from an element
    of the array: its type is the element's type when that value is
    truthy and "info" otherwise, its confidence is the element's
    confidence when that value is truthy and 0.8 otherwise.  A truthy
    upstream value is returned unchanged, whatever it is; so the types are
    among warning, info, success and tip and the confidences between 0 and
    1 provided the truthy upstream types and confidences are. *)
Theorem insights_defaulted (P : Platform)
    (expenses : list Expense.ExpenseRecord) (env : Env) (tr : Trace)
    (text : jsstring) (xs : list JSValue) :
  response env tr (insightsModel P) (insightsPrompt P expenses) = inr (Some text) ->
  text <> [] ->
  JSON_parse P text = inr (JArr xs) ->
  exists r,
    fst (run (generateExpenseInsights P expenses) env tr) = inr r
    /\ Forall
         (fun ins =>
            present ins
            /\ (ins = fallbackInsight
                \/ exists x,
                     In x xs
                     /\ defaulted (prop x "type") (JStr (lit "info"))
                          (Insight.type ins)
                     /\ defaulted (prop x "confidence") (JNum 0.8)
                          (Insight.confidence ins))) r
    /\ ((forall x, In x xs ->
           (truthy (prop x "type") = true -> valid_type (prop x "type") = true)
           /\ (truthy (prop x "confidence") = true ->
               valid_confidence (prop x "confidence") = true)) ->
        Forall
          (fun ins =>
             valid_type (Insight.type ins) = true
             /\ valid_confidence (Insight.confidence ins) = true) r).
Proof.
  intros Hresp Htext Hparse.
  destruct (existsb is_nullish xs) eqn:Hxs.
  - exists [fallbackInsight]. split.
    + now apply (run_insights_of_nullish P expenses env tr text xs).
    + split.
      * constructor; [|constructor]. split; [apply present_fallbackInsight|now left].
      * intros _. constructor; [|constructor]. split; reflexivity.
  - pose proof (run_insights_of_array P expenses env tr text xs
                  Hresp Htext Hparse Hxs) as Hrun.
    cbv zeta in Hrun. rewrite Hrun. cbn [fst].
    eexists. split; [reflexivity|]. split.
    + apply Forall_forall. intros ins Hin.
      destruct (In_formatted_from _ _ _ _ Hin) as [x [i [now [Hx ->]]]].
      split; [apply present_formatted|].
      right. exists x. split; [assumption|].
      split; apply defaulted_or_else.
    + intros Hvalid. apply Forall_forall. intros ins Hin.
      destruct (In_formatted_from _ _ _ _ Hin) as [x [i [now [Hx ->]]]].
      destruct (Hvalid x Hx) as [Htype Hconf].
      split; apply valid_or_else; auto.
Qed.

(** The array of two objects: the first has a valid type and confidence,
    the second has neither field and gets the defaults. *)
Lemma insights_defaulted_witness :
  exists r,
    fst (run (generateExpenseInsights lunch_platform [lunch])
           (scripted (says two_text) ticking) []) = inr r
    /\ Forall
         (fun ins =>
            present ins
            /\ (ins = fallbackInsight
                \/ exists x,
                     In x two_elems
                     /\ defaulted (prop x "type") (JStr (lit "info"))
                          (Insight.type ins)
                     /\ defaulted (prop x "confidence") (JNum 0.8)
                          (Insight.confidence ins))) r
    /\ ((forall x, In x two_elems ->
           (truthy (prop x "type") = true -> valid_type (prop x "type") = true)
           /\ (truthy (prop x "confidence") = true ->
               valid_confidence (prop x "confidence") = true)) ->
        Forall
          (fun ins =>
             valid_type (Insight.type ins) = true
             /\ valid_confidence (Insight.confidence ins) = true) r).
Proof.
  apply (insights_defaulted lunch_platform [lunch]
           (scripted (says two_text) ticking) [] two_text two_elems).
  - reflexivity.
  - discriminate.
  - vm_compute. reflexivity.
Defined.

(** C3.  Whatever the description, the model output or the failure,
    [categorizeExpense] returns one of Food, Transportation,
    Entertainment, Shopping, Bills, Healthcare, Other.  It returns the
    trimmed model output exactly when that trimmed output is one of the
    seven names, compared code unit by code unit; on any other output, on
    a missing text and on a failed call it returns "Other". *)
Theorem categorizeExpense_spec (P : Platform) (description : jsstring)
    (env : Env) (tr : Trace) :
  let answer := response env tr (plainModel P) (categorizePrompt description) in
  let categories :=
    [ lit "Food"; lit "Transportation"; lit "Entertainment"; lit "Shopping";
      lit "Bills"; lit "Healthcare"; lit "Other" ] in
  exists c,
    fst (run (categorizeExpense P description) env tr) = inr c
    /\ In c categories
    /\ (forall raw, answer = inr (Some raw) ->
          (In (trim raw) categories -> c = trim raw)
          /\ (~ In (trim raw) categories -> c = lit "Other")
          /\ (c = trim raw <-> In (trim raw) categories))
    /\ (answer = inr None -> c = lit "Other")
    /\ (forall e, answer = inl e -> c = lit "Other").
Proof.
  intros answer categories. subst answer.
  change categories with validCategories. clear categories.
  pose proof (run_categorizeExpense P description env tr) as Hrun.
  cbv zeta in Hrun. rewrite Hrun. clear Hrun.
  assert (Hother : In (lit "Other") validCategories) by (simpl; tauto).
  destruct (response env tr (plainModel P) (categorizePrompt description))
    as [e|[raw|]]; cbn [fst option_map text_of].
  - exists (lit "Other"). repeat split; try assumption; try discriminate; auto.
  - destruct (includes validCategories (trim raw)) eqn:Hin.
    + apply includes_In in Hin. exists (trim raw).
      split; [reflexivity|]. split; [assumption|].
      split; [|split; discriminate].
      intros raw' H. injection H as <-. repeat split; auto. tauto.
    + apply includes_false in Hin. exists (lit "Other").
      split; [reflexivity|]. split; [assumption|].
      split; [|split; discriminate].
      intros raw' H. injection H as <-. repeat split; auto; try tauto.
      intros Heq. rewrite <- Heq. assumption.
  - exists (lit "Other"). repeat split; try assumption; try discriminate; auto.
Qed.

(** The scenario of the specification: the model answers "food" in
    lower case to "Starbucks coffee", and the category is "Other". *)
Lemma categorizeExpense_food_witness :
  fst (run (categorizeExpense lunch_platform (lit "Starbucks coffee"))
         (scripted (says (lit "food")) ticking) []) = inr (lit "Other").
Proof.
  destruct (categorizeExpense_spec lunch_platform (lit "Starbucks coffee")
              (scripted (says (lit "food")) ticking) [])
    as [c [Hrun [_ [Hraw _]]]].
  rewrite Hrun. f_equal.
  apply (Hraw (lit "food") eq_refl).
  vm_compute. intuition discriminate.
Defined.

(** C6 at the input where the code departs from it: the model call
    succeeds with a text of one space and one line feed, the guard on the
    empty text lets it pass, and the answer returned is the empty string. *)
Theorem generateAIAnswer_blank_text :
  fst (run (generateAIAnswer lunch_platform (lit "How much did I spend?") [lunch])
         (scripted (says [32%N; 10%N]) ticking) []) = inr [].
Proof. vm_compute. reflexivity. Qed.

End GeminiSpec.

(** ** The user provisioner *)

Module CheckUserFacts.
Import Prisma CheckUser.

Section WithRows.
Variable DbUser : Type.
Implicit Types (env : Env DbUser) (tr : Trace DbUser) (user : Clerk.User).

(** Every run of [checkUser], case by case. *)
Lemma run_checkUser env tr :
  run checkUser env tr =
  match env _ CurrentUser tr with
  | inl e => (inl e, session_read env tr)
  | inr None => (inr None, session_read env tr)
  | inr (Some user) =>
      match found env tr user with
      | inl e => (inl e, looked_up env tr user)
      | inr (Some existingUser) => (inr (Some existingUser), looked_up env tr user)
      | inr None =>
          match first_emailAddress (Clerk.emailAddresses user) with
          | inl e => (inl e, looked_up env tr user)
          | inr email0 =>
              let data :=
                {| clerkUserId := Clerk.id user;
                   email := email0;
                   name := to_string (Clerk.firstName user) ++ lit " "
                           ++ to_string (Clerk.lastName user);
                   imageUrl := Clerk.imageUrl user |} in
              let created := env _ (Create data) (looked_up env tr user) in
              (match created with
               | inl e => inl e
               | inr row => inr (Some row)
               end,
               looked_up env tr user ++ [Called (Create data) created])
          end
      end
  end.
Proof.
  unfold checkUser. rewrite run_bind, run_call_or_throw. fold (session_read env tr).
  destruct (env _ CurrentUser tr) as [e|[user|]]; try reflexivity.
  rewrite run_bind, run_call_or_throw.
  fold (found env tr user). fold (looked_up env tr user).
  destruct (found env tr user) as [e|[existingUser|]]; try reflexivity.
  rewrite run_bind, run_liftR.
  destruct (first_emailAddress (Clerk.emailAddresses user)) as [e|email0];
    [reflexivity|].
  rewrite run_bind, run_call_or_throw. cbv zeta.
  destruct (env _ (Create _) (looked_up env tr user)); reflexivity.
Qed.

End WithRows.
End CheckUserFacts.

(** ** The user provisioner against its specification *)

Module CheckUserSpec.
Import Prisma CheckUser CheckUserFacts Scenarios.

(** C4.  [checkUser] returns [null] when there is no current session.
    With a session whose id an application user already has, it returns
    that record as the lookup gave it, and the calls it made are the
    session read and the lookup: nothing is written.  With a session that
    has a first email address and no application user, it calls [create]
    with the session id, that first email address, the first and last
    name joined, and the avatar URL, and returns the record created. *)
Theorem checkUser_spec (DbUser : Type) (env : Env DbUser) (tr : Trace DbUser) :
  (env _ CurrentUser tr = inr None ->
   run checkUser env tr = (inr None, tr ++ [Called CurrentUser (inr None)]))
  /\ (forall user existingUser,
        env _ CurrentUser tr = inr (Some user) ->
        found env tr user = inr (Some existingUser) ->
        let calls :=
          [ Called CurrentUser (inr (Some user));
            Called (FindUnique (Clerk.id user)) (inr (Some existingUser)) ] in
        run checkUser env tr = (inr (Some existingUser), tr ++ calls)
        /\ existsb is_write calls = false)
  /\ (forall user first others created,
        env _ CurrentUser tr = inr (Some user) ->
        found env tr user = inr None ->
        Clerk.emailAddresses user = first :: others ->
        let data :=
          {| clerkUserId := Clerk.id user;
             email := Clerk.emailAddress first;
             name := to_string (Clerk.firstName user) ++ lit " "
                     ++ to_string (Clerk.lastName user);
             imageUrl := Clerk.imageUrl user |} in
        env _ (Create data) (looked_up env tr user) = inr created ->
        run checkUser env tr =
        (inr (Some created),
         looked_up env tr user ++ [Called (Create data) (inr created)])).
Proof.
  rewrite run_checkUser. split; [|split].
  - intros Hsession. unfold session_read. now rewrite Hsession.
  - intros user existingUser Hsession Hfound calls. split; [|reflexivity].
    rewrite Hsession, Hfound. unfold looked_up. rewrite Hfound.
    unfold session_read. rewrite Hsession. subst calls.
    now rewrite <- app_assoc.
  - intros user first others created Hsession Hfound Hemail data Hcreate.
    rewrite Hsession, Hfound, Hemail. cbn [first_emailAddress]. cbv zeta.
    fold data. now rewrite Hcreate.
Qed.

(** The three paths on the in-memory database: no session; Ada already
    has a row; Ada has none and one is created for her. *)
Lemma checkUser_spec_witness :
  run checkUser (memory_env None []) []
  = (inr None, [Called CurrentUser (inr None)])
  /\ run checkUser (memory_env (Some ada) [ada_row]) []
     = (inr (Some ada_row),
        [ Called CurrentUser (inr (Some ada));
          Called (FindUnique (lit "user_1")) (inr (Some ada_row)) ])
  /\ run checkUser (memory_env (Some ada) []) []
     = (inr (Some ada_row),
        [ Called CurrentUser (inr (Some ada));
          Called (FindUnique (lit "user_1")) (inr None);
          Called (Create ada_row) (inr ada_row) ]).
Proof.
  split; [|split].
  - exact (proj1 (checkUser_spec _ (memory_env None []) []) eq_refl).
  - exact (proj1 (proj1 (proj2 (checkUser_spec _ (memory_env (Some ada) [ada_row]) []))
                    ada ada_row eq_refl eq_refl)).
  - exact (proj2 (proj2 (checkUser_spec _ (memory_env (Some ada) []) []))
             ada _ [] ada_row eq_refl eq_refl eq_refl eq_refl).
Defined.

(** C7.  An error thrown by the lookup or by the creation inside
    [checkUser] reaches the caller as it was thrown: there is no fallback
    value.  The three operations of the insight generator, for their
    part, return a value on every run. *)
Theorem database_errors_propagate (DbUser : Type) (env : Env DbUser)
    (tr : Trace DbUser) (user : Clerk.User) (e : Thrown) :
  env _ CurrentUser tr = inr (Some user) ->
  (found env tr user = inl e -> fst (run checkUser env tr) = inl e)
  /\ (forall first others,
        found env tr user = inr None ->
        Clerk.emailAddresses user = first :: others ->
        env _ (Create
                 {| clerkUserId := Clerk.id user;
                    email := Clerk.emailAddress first;
                    name := to_string (Clerk.firstName user) ++ lit " "
                            ++ to_string (Clerk.lastName user);
                    imageUrl := Clerk.imageUrl user |})
          (looked_up env tr user) = inl e ->
        fst (run checkUser env tr) = inl e)
  /\ (forall P expenses genv gtr,
        exists r,
          fst (run (Gemini.generateExpenseInsights P expenses) genv gtr) = inr r)
  /\ (forall P description genv gtr,
        exists c,
          fst (run (Gemini.categorizeExpense P description) genv gtr) = inr c)
  /\ (forall P question context genv gtr,
        exists a,
          fst (run (Gemini.generateAIAnswer P question context) genv gtr) = inr a).
Proof.
  intros Hsession. rewrite run_checkUser, Hsession.
  split; [|split; [|split; [|split]]].
  - intros ->. reflexivity.
  - intros first others -> -> Hcreate. cbn [first_emailAddress]. cbv zeta.
    now rewrite Hcreate.
  - intros. apply GeminiFacts.generateExpenseInsights_returns.
  - intros. apply GeminiFacts.categorizeExpense_returns.
  - intros. apply GeminiFacts.generateAIAnswer_returns.
Qed.

(** The database is unreachable when Ada signs in: the lookup throws, and
    so does [checkUser]; with a lookup that finds nothing and a creation
    that throws, [checkUser] throws as well. *)
Lemma database_errors_propagate_witness :
  fst (run checkUser (scripted_db (Some ada) (inl ConnectionLost) (inl ConnectionLost)) [])
  = inl ConnectionLost
  /\ fst (run checkUser (scripted_db (Some ada) (inr None) (inl ConnectionLost)) [])
     = inl ConnectionLost.
Proof.
  split.
  - exact (proj1 (database_errors_propagate _
                    (scripted_db (Some ada) (inl ConnectionLost) (inl ConnectionLost))
                    [] ada ConnectionLost eq_refl) eq_refl).
  - exact (proj1 (proj2 (database_errors_propagate _
                    (scripted_db (Some ada) (inr None) (inl ConnectionLost))
                    [] ada ConnectionLost eq_refl))
             _ [] eq_refl eq_refl eq_refl).
Defined.

(** C8.  With a session, no matching application user and an empty list
    of email addresses, [checkUser] throws: reading [emailAddress] of the
    missing first address fails before [create] is called, so the run
    neither returns [null] nor creates a record. *)
Theorem checkUser_without_email (DbUser : Type) (env : Env DbUser)
    (tr : Trace DbUser) (user : Clerk.User) :
  env _ CurrentUser tr = inr (Some user) ->
  found env tr user = inr None ->
  Clerk.emailAddresses user = [] ->
  let calls :=
    [ Called CurrentUser (inr (Some user));
      Called (FindUnique (Clerk.id user)) (inr None) ] in
  exists message,
    run checkUser env tr = (inl (TypeError message), tr ++ calls)
    /\ existsb is_write calls = false.
Proof.
  intros Hsession Hfound Hemail calls. rewrite run_checkUser.
  rewrite Hsession, Hfound, Hemail. cbn [first_emailAddress].
  eexists. split; [|reflexivity].
  unfold looked_up. rewrite Hfound. unfold session_read. rewrite Hsession.
  subst calls. now rewrite <- app_assoc.
Qed.

(** A first sign-in without any email address. *)
Lemma checkUser_without_email_witness :
  exists message,
    run checkUser (memory_env (Some anonymous) []) []
    = (inl (TypeError message),
       [ Called CurrentUser (inr (Some anonymous));
         Called (FindUnique (lit "user_2")) (inr None) ])
    /\ existsb (@is_write UserCreateInput)
         [ Called CurrentUser (inr (Some anonymous));
           Called (FindUnique (lit "user_2")) (inr None) ] = false.
Proof.
  exact (checkUser_without_email _ (memory_env (Some anonymous) []) [] anonymous
           eq_refl eq_refl eq_refl).
Defined.

(** C10.  On the creation path the name passed to [create] is the first
    name, one space, the last name, each converted by the template
    literal: a name part that is [null] contributes the four letters
    "null", so a session without names is stored as "null null". *)
Theorem checkUser_name (DbUser : Type) (env : Env DbUser) (tr : Trace DbUser)
    (user : Clerk.User) (first : Clerk.EmailAddress)
    (others : list Clerk.EmailAddress) :
  env _ CurrentUser tr = inr (Some user) ->
  found env tr user = inr None ->
  Clerk.emailAddresses user = first :: others ->
  exists data answer,
    snd (run checkUser env tr) = looked_up env tr user ++ [Called (Create data) answer]
    /\ (forall f l, Clerk.firstName user = Some f -> Clerk.lastName user = Some l ->
          name data = f ++ lit " " ++ l)
    /\ (forall l, Clerk.firstName user = None -> Clerk.lastName user = Some l ->
          name data = lit "null " ++ l)
    /\ (forall f, Clerk.firstName user = Some f -> Clerk.lastName user = None ->
          name data = f ++ lit " null")
    /\ (Clerk.firstName user = None -> Clerk.lastName user = None ->
          name data = lit "null null").
Proof.
  intros Hsession Hfound Hemail. rewrite run_checkUser.
  rewrite Hsession, Hfound, Hemail. cbn [first_emailAddress]. cbv zeta.
  do 2 eexists. split; [reflexivity|]. cbn [name].
  repeat split; intros; repeat match goal with H : _ = _ |- _ => rewrite H end;
    reflexivity.
Qed.

(** A first sign-in with an email address and no name. *)
Lemma checkUser_name_witness :
  exists data answer,
    snd (run checkUser (memory_env (Some nameless) []) [])
    = looked_up (memory_env (Some nameless) []) [] nameless
      ++ [Called (Create data) answer]
    /\ name data = lit "null null".
Proof.
  destruct (checkUser_name _ (memory_env (Some nameless) []) [] nameless
              _ [] eq_refl eq_refl eq_refl)
    as [data [answer [Hrun [_ [_ [_ Hnull]]]]]].
  exists data, answer. split; [exact Hrun|].
  exact (Hnull eq_refl eq_refl).
Defined.

End CheckUserSpec.

(** ** Further properties of the insight generator *)

Module GeminiMore.
Import Gemini GeminiFacts Scenarios.

(** X1.  [generateAIAnswer] on every run: the answer returned is always
    a trimmed string; on a non-empty response text it is that text
    trimmed, and it is empty exactly when the text is white space only;
    on a failed call or an empty or missing text it is the apology. *)
Theorem generateAIAnswer_spec (P : Platform) (question : jsstring)
    (context : list Expense.ExpenseRecord) (env : Env) (tr : Trace) :
  let answer := response env tr (plainModel P) (answerPrompt P question context) in
  exists a,
    fst (run (generateAIAnswer P question context) env tr) = inr a
    /\ trim a = a
    /\ (forall text, answer = inr (Some text) -> text <> [] ->
          a = trim text /\ (a = [] <-> forallb is_white_space text = true))
    /\ (answer = inr (Some []) \/ answer = inr None \/ (exists e, answer = inl e) ->
        a = lit "I'm unable to provide a detailed answer at the moment. Please try refreshing the insights or check your connection.").
Proof.
  intros answer. subst answer.
  pose proof (run_generateAIAnswer P question context env tr) as Hrun.
  cbv zeta in Hrun. rewrite Hrun. clear Hrun.
  assert (Hapology : trim apology = apology) by (vm_compute; reflexivity).
  destruct (response env tr (plainModel P) (answerPrompt P question context))
    as [e|[[|c text]|]]; cbn [no_text text_of fst].
  - exists apology. split; [reflexivity|]. split; [exact Hapology|].
    split; [discriminate|reflexivity].
  - exists apology. split; [reflexivity|]. split; [exact Hapology|].
    split; [|reflexivity].
    intros text H Hne. injection H as <-. congruence.
  - exists (trim (c :: text)). split; [reflexivity|].
    split; [apply trim_idempotent|]. split.
    + intros text' H _. injection H as <-. split; [reflexivity|apply trim_nil_iff].
    + intros [H|[H|[e H]]]; discriminate.
  - exists apology. split; [reflexivity|]. split; [exact Hapology|].
    split; [discriminate|reflexivity].
Qed.

(** X2.  The ids of the insights returned by one call are pairwise
    distinct on every run, whatever the clock reads (even when it reads
    the same time for every element): the position that ends each id
    tells them apart. *)
Theorem insight_ids_distinct (P : Platform)
    (expenses : list Expense.ExpenseRecord) (env : Env) (tr : Trace) :
  exists r,
    fst (run (generateExpenseInsights P expenses) env tr) = inr r
    /\ NoDup (map Insight.id r).
Proof.
  destruct (insights_shape P expenses env tr) as [r [Hrun [->|[xs [nows [_ ->]]]]]];
    eexists; (split; [exact Hrun|]).
  - repeat constructor. intros [].
  - apply NoDup_ids_formatted_from.
Qed.

(** X3.  A response that parses, but not as an array without [null]
    elements — an object, a string, a number, [null], or an array that
    holds a [null] — gives the fallback list as well. *)
Theorem insights_fallback_on_malformed (P : Platform)
    (expenses : list Expense.ExpenseRecord) (env : Env) (tr : Trace)
    (text : jsstring) (v : JSValue) :
  response env tr (insightsModel P) (insightsPrompt P expenses) = inr (Some text) ->
  JSON_parse P text = inr v ->
  (forall xs, v <> JArr xs)
  \/ (exists xs, v = JArr xs /\ existsb is_nullish xs = true) ->
  fst (run (generateExpenseInsights P expenses) env tr) = inr [fallbackInsight].
Proof.
  intros Hresp Hparse Hv.
  pose proof (run_generateExpenseInsights P expenses env tr) as Hrun.
  cbv zeta in Hrun.
  destruct text as [|c text]; [now rewrite Hrun, Hresp|].
  destruct Hv as [Hv|[xs [-> Hxs]]].
  - rewrite Hrun, Hresp. cbn [no_text text_of]. rewrite Hparse.
    destruct v; try reflexivity. now destruct (Hv elems).
  - apply (run_insights_of_nullish P expenses env tr (c :: text) xs);
      auto; discriminate.
Qed.

(** The model answers with a JSON object instead of an array. *)
Lemma insights_fallback_on_malformed_witness :
  fst (run (generateExpenseInsights lunch_platform [lunch])
         (scripted (says (lit "{}")) ticking) []) = inr [fallbackInsight].
Proof.
  apply (insights_fallback_on_malformed lunch_platform [lunch]
           (scripted (says (lit "{}")) ticking) [] (lit "{}") (JObj [])).
  - reflexivity.
  - vm_compute. reflexivity.
  - left. discriminate.
Defined.

(** X4.  One call of [generateExpenseInsights] sends exactly one request
    to the model (there is no retry), the request being the first thing
    it does; and it writes one line on the console exactly when it
    returns the fallback list, none otherwise. *)
Theorem insights_one_request (P : Platform)
    (expenses : list Expense.ExpenseRecord) (env : Env) (tr : Trace) :
  let request := GenerateContent (insightsModel P) (insightsPrompt P expenses) in
  exists r added,
    run (generateExpenseInsights P expenses) env tr = (inr r, tr ++ added)
    /\ hd_error added = Some (Called request (env _ request tr))
    /\ requests added = 1
    /\ ((r = [fallbackInsight] /\ exists e, console added = [insightsLine e])
        \/ (r <> [fallbackInsight] /\ console added = [])).
Proof.
  intros request.
  pose proof (run_generateExpenseInsights P expenses env tr) as Hrun.
  cbv zeta in Hrun. rewrite Hrun. clear Hrun. unfold asked. fold request.
  assert (Hfallback : forall e,
    exists r added,
      (inr [fallbackInsight] : Thrown + list Insight.AIInsight,
       (tr ++ [Called request (env _ request tr)]) ++ [Logged (insightsLine e)])
      = (inr r, tr ++ added)
      /\ hd_error added = Some (Called request (env _ request tr))
      /\ requests added = 1
      /\ ((r = [fallbackInsight] /\ exists e, console added = [insightsLine e])
          \/ (r <> [fallbackInsight] /\ console added = []))).
  { intros e. exists [fallbackInsight]. eexists. split.
    - rewrite <- app_assoc. reflexivity.
    - repeat split. left. split; [reflexivity|]. exists e. reflexivity. }
  destruct (response env tr (insightsModel P) (insightsPrompt P expenses))
    as [e|text]; [apply Hfallback|].
  destruct (no_text text); [apply Hfallback|].
  destruct (JSON_parse P (text_of text)) as [e|insights]; [apply Hfallback|].
  destruct insights as [| | | | |xs|]; cbn [insights_map]; rewrite ?run_raise;
    try apply Hfallback.
  clear Hfallback.
  destruct (mapM_formatInsight_reads xs 0 env
              (tr ++ [Called request (env _ request tr)])) as [nows Hnows].
  destruct (existsb is_nullish xs) eqn:Hxs.
  - destruct (run_mapM_formatInsight_nullish xs 0 env
                (tr ++ [Called request (env _ request tr)]) Hxs)
      as [e [tr' Hmap]].
    rewrite Hmap in *. cbn [snd] in Hnows. subst tr'.
    exists [fallbackInsight],
      (Called request (env _ request tr)
       :: map (Called Date_now) nows ++ [Logged (insightsLine e)]).
    split; [now rewrite <- !app_assoc|]. split; [reflexivity|]. split.
    + change (requests ([Called request (env _ request tr)]
                ++ map (Called Date_now) nows ++ [Logged (insightsLine e)]) = 1).
      rewrite !requests_app, requests_clock. reflexivity.
    + left. split; [reflexivity|]. exists e.
      change (console ([Called request (env _ request tr)]
                ++ map (Called Date_now) nows ++ [Logged (insightsLine e)])
              = [insightsLine e]).
      rewrite !console_app, console_clock. reflexivity.
  - rewrite run_mapM_formatInsight in * by now apply Forall_not_nullish.
    clear Hnows nows.
    set (nows := clock_reads env _ (List.length xs)).
    exists (formatted_from xs 0 nows),
      (Called request (env _ request tr) :: map (Called Date_now) nows).
    split; [now rewrite <- !app_assoc|]. split; [reflexivity|]. split.
    + change (requests ([Called request (env _ request tr)]
                ++ map (Called Date_now) nows) = 1).
      rewrite requests_app, requests_clock. reflexivity.
    + right. split.
      * intros Heq.
        assert (Hin : In fallbackInsight (formatted_from xs 0 nows))
          by (rewrite Heq; now left).
        apply In_formatted_from in Hin. destruct Hin as [x [i [now [_ Hins]]]].
        apply (f_equal Insight.id) in Hins. discriminate Hins.
      * change (console ([Called request (env _ request tr)]
                  ++ map (Called Date_now) nows) = []).
        rewrite console_app, console_clock. reflexivity.
Qed.


(** X6.  The id of an expense never reaches the model: two expense lists
    that agree on amount, category, description and date are the same
    input to [generateExpenseInsights] and to [generateAIAnswer]. *)
Theorem expense_ids_not_sent (P : Platform) (question : jsstring)
    (expenses expenses' : list Expense.ExpenseRecord) :
  map without_id expenses = map without_id expenses' ->
  generateExpenseInsights P expenses = generateExpenseInsights P expenses'
  /\ generateAIAnswer P question expenses = generateAIAnswer P question expenses'.
Proof.
  intros Hsame.
  assert (Hsummary : expensesSummary expenses = expensesSummary expenses').
  { unfold expensesSummary. f_equal.
    revert expenses' Hsame.
    induction expenses as [|e es IH]; intros [|e' es']; simpl;
      try discriminate; [reflexivity|].
    intros H. injection H as Ha Hc Hd Hdate Hrest.
    f_equal; [|now apply IH].
    unfold summarize. now rewrite Ha, Hc, Hd, Hdate. }
  unfold generateExpenseInsights, generateAIAnswer, insightsPrompt, answerPrompt.
  now rewrite Hsummary.
Qed.

(** The lunch expense under another id. *)
Lemma expense_ids_not_sent_witness :
  generateExpenseInsights lunch_platform [lunch]
  = generateExpenseInsights lunch_platform
      [ {| Expense.id := lit "2";
           Expense.amount := 50;
           Expense.category := lit "Food";
           Expense.description := lit "Lunch";
           Expense.date := lit "2024-01-01" |} ]
  /\ generateAIAnswer lunch_platform (lit "How much?") [lunch]
     = generateAIAnswer lunch_platform (lit "How much?")
         [ {| Expense.id := lit "2";
              Expense.amount := 50;
              Expense.category := lit "Food";
              Expense.description := lit "Lunch";
              Expense.date := lit "2024-01-01" |} ].
Proof.
  apply (expense_ids_not_sent lunch_platform (lit "How much?")). reflexivity.
Defined.

(** X7.  White space around the category is ignored: when the model
    answers with one of the seven categories, preceded and followed by
    any white space (spaces, line feeds, ...), that category is what
    [categorizeExpense] returns. *)
Theorem categorizeExpense_padded (P : Platform) (description : jsstring)
    (env : Env) (tr : Trace) (before category after : jsstring) :
  In category validCategories ->
  forallb is_white_space before = true ->
  forallb is_white_space after = true ->
  response env tr (plainModel P) (categorizePrompt description)
  = inr (Some (before ++ category ++ after)) ->
  fst (run (categorizeExpense P description) env tr) = inr category.
Proof.
  intros Hin Hbefore Hafter Hresp.
  pose proof (run_categorizeExpense P description env tr) as Hrun.
  cbv zeta in Hrun. rewrite Hrun, Hresp. clear Hrun. cbn [fst option_map text_of].
  assert (Htrim : trim (before ++ category ++ after) = category).
  { apply trim_padded; auto;
      simpl in Hin; decompose [or] Hin; subst; try contradiction;
      try discriminate; reflexivity. }
  rewrite Htrim.
  apply includes_In in Hin. now rewrite Hin.
Qed.

(** The model answers "Food" on a line of its own, after a space. *)
Lemma categorizeExpense_padded_witness :
  fst (run (categorizeExpense lunch_platform (lit "Lunch"))
         (scripted (says (32%N :: lit "Food" ++ [10%N])) ticking) [])
  = inr (lit "Food").
Proof.
  apply (categorizeExpense_padded lunch_platform (lit "Lunch")
           (scripted (says (32%N :: lit "Food" ++ [10%N])) ticking) []
           [32%N] (lit "Food") [10%N]).
  - left. reflexivity.
  - reflexivity.
  - reflexivity.
  - reflexivity.
Defined.

End GeminiMore.

(** ** Further properties of the user provisioner *)

Module CheckUserMore.
Import Prisma CheckUser CheckUserFacts Scenarios.

Lemma written_app {DbUser} (a b : Trace DbUser) :
  written (a ++ b) = written a ++ written b.
Proof. unfold written. apply flat_map_app. Qed.

(** X8.  What [checkUser] may do to the database: without a session it
    does not touch it; it never writes more than once; and when it
    writes, the session's id had just been looked up and not found, and
    the record written carries that id. *)
Theorem checkUser_writes (DbUser : Type) (env : Env DbUser) (tr : Trace DbUser) :
  exists added,
    snd (run checkUser env tr) = tr ++ added
    /\ ((forall user, env _ CurrentUser tr <> inr (Some user)) ->
        existsb is_db_call added = false)
    /\ (written added = []
        \/ exists user first others,
             env _ CurrentUser tr = inr (Some user)
             /\ found env tr user = inr None
             /\ Clerk.emailAddresses user = first :: others
             /\ written added =
                [ {| clerkUserId := Clerk.id user;
                     email := Clerk.emailAddress first;
                     name := to_string (Clerk.firstName user) ++ lit " "
                             ++ to_string (Clerk.lastName user);
                     imageUrl := Clerk.imageUrl user |} ]).
Proof.
  rewrite run_checkUser. unfold looked_up, session_read.
  destruct (env _ CurrentUser tr) as [e|[user|]] eqn:Hsession.
  - exists [Called CurrentUser (inl e)]. repeat split. now left.
  - destruct (found env tr user) as [e|[existingUser|]] eqn:Hfound.
    + eexists. split; [cbn [snd]; rewrite <- app_assoc; reflexivity|].
      split; [intros H; now destruct (H user)|now left].
    + eexists. split; [cbn [snd]; rewrite <- app_assoc; reflexivity|].
      split; [intros H; now destruct (H user)|now left].
    + destruct (Clerk.emailAddresses user) as [|first others] eqn:Hemail;
        cbn [first_emailAddress].
      * eexists. split; [cbn [snd]; rewrite <- app_assoc; reflexivity|].
        split; [intros H; now destruct (H user)|now left].
      * cbv zeta. eexists.
        split; [cbn [snd]; rewrite <- !app_assoc; reflexivity|].
        split; [intros H; now destruct (H user)|].
        right. exists user, first, others. repeat split; auto.
  - exists [Called CurrentUser (inr None)]. repeat split. now left.
Qed.

Lemma rows_of_app (a b : Trace UserCreateInput) :
  rows_of (a ++ b) = rows_of a ++ rows_of b.
Proof. unfold rows_of. apply flat_map_app. Qed.

Lemma rows_of_looked_up (env : Env UserCreateInput) (tr : Trace UserCreateInput)
    (user : Clerk.User) :
  rows_of (session_read env tr) = rows_of tr
  /\ rows_of (looked_up env tr user) = rows_of tr.
Proof.
  unfold looked_up, session_read. rewrite !rows_of_app. simpl.
  now rewrite !app_nil_r.
Qed.

Lemma find_none_existsb {A} (f : A -> bool) (l : list A) :
  find f l = None -> existsb f l = false.
Proof.
  induction l as [|x l IH]; simpl; [reflexivity|].
  destruct (f x); [discriminate|]. exact IH.
Qed.

Lemma find_app_none {A} (f : A -> bool) (l l' : list A) :
  find f l = None -> find f (l ++ l') = find f l'.
Proof.
  induction l as [|x l IH]; simpl; [reflexivity|].
  destruct (f x); [discriminate|]. exact IH.
Qed.

(** X9.  Find-or-create is idempotent when the calls follow one another,
    on the database of the specification (rows are kept, the external id
    is a unique key): for a session with an email address, a second
    [checkUser] returns the record the first one returned — found or
    just created —, that record carries the session's id, and the second
    call leaves the user collection as the first one left it. *)
Theorem checkUser_idempotent (user : Clerk.User) (initial : list UserCreateInput)
    (tr : Trace UserCreateInput) (first : Clerk.EmailAddress)
    (others : list Clerk.EmailAddress) :
  Clerk.emailAddresses user = first :: others ->
  let env := memory_env (Some user) initial in
  exists row tr1 tr2,
    run checkUser env tr = (inr (Some row), tr1)
    /\ run checkUser env tr1 = (inr (Some row), tr2)
    /\ clerkUserId row = Clerk.id user
    /\ rows_of tr2 = rows_of tr1
    /\ In row (initial ++ rows_of tr1).
Proof.
  intros Hemail env.
  assert (Hfound : forall t,
            found env t user = inr (find (has_key (Clerk.id user)) (initial ++ rows_of t))).
  { intros t. unfold found. cbn [env memory_env].
    now rewrite (proj1 (rows_of_looked_up env t user)). }
  assert (Hsession : forall t, env _ CurrentUser t = inr (Some user)) by reflexivity.
  destruct (find (has_key (Clerk.id user)) (initial ++ rows_of tr)) as [row|] eqn:Hfind.
  - exists row, (looked_up env tr user), (looked_up env (looked_up env tr user) user).
    assert (Hrun : forall t, rows_of t = rows_of tr ->
              run checkUser env t = (inr (Some row), looked_up env t user)).
    { intros t Ht. rewrite run_checkUser, Hsession, Hfound, Ht, Hfind. reflexivity. }
    split; [now apply Hrun|].
    split; [apply Hrun; apply rows_of_looked_up|].
    apply find_some in Hfind. destruct Hfind as [Hin Hkey].
    split; [now apply eqb_eq in Hkey|].
    rewrite !(proj2 (rows_of_looked_up env _ user)). auto.
  - set (data := {| clerkUserId := Clerk.id user;
                    email := Clerk.emailAddress first;
                    name := to_string (Clerk.firstName user) ++ lit " "
                            ++ to_string (Clerk.lastName user);
                    imageUrl := Clerk.imageUrl user |}).
    set (tr1 := looked_up env tr user ++ [Called (Create data) (inr data)]).
    assert (Hrows1 : rows_of tr1 = rows_of tr ++ [data]).
    { unfold tr1. rewrite rows_of_app, (proj2 (rows_of_looked_up env tr user)).
      reflexivity. }
    exists data, tr1, (looked_up env tr1 user).
    split; [|split; [|split; [reflexivity|split]]].
    + rewrite run_checkUser, Hsession, Hfound, Hfind, Hemail.
      cbn [first_emailAddress]. cbv zeta. fold data.
      assert (Hcreate : env _ (Create data) (looked_up env tr user) = inr data).
      { cbn [env memory_env]. rewrite (proj2 (rows_of_looked_up env tr user)).
        cbn [clerkUserId data]. now rewrite (find_none_existsb _ _ Hfind). }
      rewrite Hcreate. reflexivity.
    + rewrite run_checkUser, Hsession, Hfound, Hrows1, app_assoc.
      rewrite (find_app_none _ _ _ Hfind). cbn [find].
      assert (Hkey : has_key (Clerk.id user) data = true) by apply eqb_refl.
      now rewrite Hkey.
    + apply rows_of_looked_up.
    + rewrite Hrows1, app_assoc. apply in_or_app. right. now left.
Qed.

(** Ada signs in twice on an empty database. *)
Lemma checkUser_idempotent_witness :
  exists row tr1 tr2,
    run checkUser (memory_env (Some ada) []) [] = (inr (Some row), tr1)
    /\ run checkUser (memory_env (Some ada) []) tr1 = (inr (Some row), tr2)
    /\ clerkUserId row = lit "user_1"
    /\ rows_of tr2 = rows_of tr1
    /\ In row ([] ++ rows_of tr1).
Proof.
  exact (checkUser_idempotent ada [] [] _ [] eq_refl).
Defined.

End CheckUserMore.
